(** * A shallow embedding of the CHIP-8 emulator core of [chip8.c]

    The machine object [chip8_t], its construction [init_chip8] and the
    instruction cycle [emulate_instruction] are transcribed from the C
    source.  Fixed-width C integers are integers of [Z] with their
    wrap-around written out; C arrays are lists read and written through
    checked accessors, so that an access the C program performs outside an
    array (undefined behaviour in C) shows up as an explicit [Fault]. *)

From Stdlib Require Import ZArith Lia String.
From stdpp Require Import base decidable option list.

Local Open Scope Z_scope.

(** * Part I: the program *)

Definition cast_u8 (z : Z) : Z := z mod 2 ^ 8.
Definition cast_u16 (z : Z) : Z := z mod 2 ^ 16.
Definition cast_u32 (z : Z) : Z := z mod 2 ^ 32.

Inductive fault : Type :=
| RamOOB (addr : Z)        (* ram[addr] with addr outside 0..4095 *)
| DisplayOOB (idx : Z)     (* display[idx] with idx outside 0..2047 *)
| StackOOB (slot : Z)      (* stack_ptr dereferenced at &stack[slot], slot outside 0..11 *)
| RegOOB (idx : Z)         (* V[idx] with idx outside 0..15 *)
| NullStackPtr             (* stack_ptr dereferenced while still NULL *)
| DivByZero.               (* x % 0 *)

Inductive result (A : Type) : Type :=
| Ok (a : A)
| Fault (f : fault).

Arguments Ok {A} a.
Arguments Fault {A} f.

Definition bind {A B : Type} (m : result A) (k : A -> result B) : result B :=
  match m with
  | Ok a => k a
  | Fault f => Fault f
  end.

Notation "'do' x <- m ; k" := (bind m (fun x => k))
  (at level 10, x name, m at level 100, k at level 200,
   format "'[v' 'do'  x  <-  m ; '/' k ']'").

(** [arr[i]] as an rvalue. *)
Definition index {A : Type} (oob : Z -> fault) (arr : list A) (i : Z) : result A :=
  if bool_decide (0 <= i)
  then match arr !! Z.to_nat i with
       | Some a => Ok a
       | None => Fault (oob i)
       end
  else Fault (oob i).

(** [arr[i] = a]. *)
Definition store {A : Type} (oob : Z -> fault) (arr : list A) (i : Z) (a : A)
  : result (list A) :=
  if bool_decide (0 <= i < Z.of_nat (length arr))
  then Ok (<[Z.to_nat i := a]> arr)
  else Fault (oob i).

(** [memcpy(&dst[off], src, length src)], for a copy that fits in [dst]. *)
Definition memcpy {A : Type} (dst : list A) (off : nat) (src : list A) : list A :=
  take off dst ++ src ++ drop (off + length src)%nat dst.

Record config_t : Type := {
  window_width : Z;
  window_height : Z;
  fg_color : Z;
  bg_color : Z;
  scale_factor : Z;
  pixel_outlines : bool
}.

Inductive emulator_state_t : Type := QUIT | RUNNING | PAUSED.

Record instruction_t : Type := {
  opcode : Z;
  NNN : Z;
  NN : Z;
  N : Z;
  X : Z;
  Y : Z
}.

(** [stack_ptr] is a pointer into [stack]: [Some k] stands for [&stack[k]]
    and [None] for the null pointer of a zero-initialised machine. *)
Record chip8_t : Type := {
  state : emulator_state_t;
  ram : list Z;
  display : list bool;
  stack : list Z;
  stack_ptr : option Z;
  V : list Z;
  I : Z;
  PC : Z;
  delay_timer : Z;
  sound_timer : Z;
  keypad : list bool;
  rom_name : option string;
  inst : instruction_t
}.

Definition RAM_SIZE : nat := 4096.
Definition DISPLAY_SIZE : nat := 64 * 32.
Definition STACK_SIZE : nat := 12.

Definition set_state (c : chip8_t) (x : emulator_state_t) : chip8_t :=
  {| state := x; ram := ram c; display := display c; stack := stack c;
     stack_ptr := stack_ptr c; V := V c; I := I c; PC := PC c;
     delay_timer := delay_timer c; sound_timer := sound_timer c;
     keypad := keypad c; rom_name := rom_name c; inst := inst c |}.

Definition set_ram (c : chip8_t) (x : list Z) : chip8_t :=
  {| state := state c; ram := x; display := display c; stack := stack c;
     stack_ptr := stack_ptr c; V := V c; I := I c; PC := PC c;
     delay_timer := delay_timer c; sound_timer := sound_timer c;
     keypad := keypad c; rom_name := rom_name c; inst := inst c |}.

Definition set_display (c : chip8_t) (x : list bool) : chip8_t :=
  {| state := state c; ram := ram c; display := x; stack := stack c;
     stack_ptr := stack_ptr c; V := V c; I := I c; PC := PC c;
     delay_timer := delay_timer c; sound_timer := sound_timer c;
     keypad := keypad c; rom_name := rom_name c; inst := inst c |}.

Definition set_stack (c : chip8_t) (x : list Z) : chip8_t :=
  {| state := state c; ram := ram c; display := display c; stack := x;
     stack_ptr := stack_ptr c; V := V c; I := I c; PC := PC c;
     delay_timer := delay_timer c; sound_timer := sound_timer c;
     keypad := keypad c; rom_name := rom_name c; inst := inst c |}.

Definition set_stack_ptr (c : chip8_t) (x : option Z) : chip8_t :=
  {| state := state c; ram := ram c; display := display c; stack := stack c;
     stack_ptr := x; V := V c; I := I c; PC := PC c;
     delay_timer := delay_timer c; sound_timer := sound_timer c;
     keypad := keypad c; rom_name := rom_name c; inst := inst c |}.

Definition set_V (c : chip8_t) (x : list Z) : chip8_t :=
  {| state := state c; ram := ram c; display := display c; stack := stack c;
     stack_ptr := stack_ptr c; V := x; I := I c; PC := PC c;
     delay_timer := delay_timer c; sound_timer := sound_timer c;
     keypad := keypad c; rom_name := rom_name c; inst := inst c |}.

Definition set_I (c : chip8_t) (x : Z) : chip8_t :=
  {| state := state c; ram := ram c; display := display c; stack := stack c;
     stack_ptr := stack_ptr c; V := V c; I := x; PC := PC c;
     delay_timer := delay_timer c; sound_timer := sound_timer c;
     keypad := keypad c; rom_name := rom_name c; inst := inst c |}.

Definition set_PC (c : chip8_t) (x : Z) : chip8_t :=
  {| state := state c; ram := ram c; display := display c; stack := stack c;
     stack_ptr := stack_ptr c; V := V c; I := I c; PC := x;
     delay_timer := delay_timer c; sound_timer := sound_timer c;
     keypad := keypad c; rom_name := rom_name c; inst := inst c |}.

Definition set_rom_name (c : chip8_t) (x : option string) : chip8_t :=
  {| state := state c; ram := ram c; display := display c; stack := stack c;
     stack_ptr := stack_ptr c; V := V c; I := I c; PC := PC c;
     delay_timer := delay_timer c; sound_timer := sound_timer c;
     keypad := keypad c; rom_name := x; inst := inst c |}.

Definition set_inst (c : chip8_t) (x : instruction_t) : chip8_t :=
  {| state := state c; ram := ram c; display := display c; stack := stack c;
     stack_ptr := stack_ptr c; V := V c; I := I c; PC := PC c;
     delay_timer := delay_timer c; sound_timer := sound_timer c;
     keypad := keypad c; rom_name := rom_name c; inst := x |}.

Definition set_config_from_args (argv : list string) : bool * config_t :=
  (true,
   {| window_width := 64;
      window_height := 32;
      fg_color := 0xFFFFFFFF;
      bg_color := 0x000000FF;
      scale_factor := 20;
      pixel_outlines := true |}).

Definition font : list Z :=
  [ 0xF0; 0x90; 0x90; 0x90; 0xF0;
    0x20; 0x60; 0x20; 0x20; 0x70;
    0xF0; 0x10; 0xF0; 0x80; 0xF0;
    0xF0; 0x10; 0xF0; 0x10; 0xF0;
    0x90; 0x90; 0xF0; 0x10; 0x10;
    0xF0; 0x80; 0xF0; 0x10; 0xF0;
    0xF0; 0x80; 0xF0; 0x90; 0xF0;
    0xF0; 0x10; 0x20; 0x40; 0x40;
    0xF0; 0x90; 0xF0; 0x90; 0xF0;
    0xF0; 0x90; 0xF0; 0x10; 0xF0;
    0xF0; 0x90; 0xF0; 0x90; 0x90;
    0xE0; 0x90; 0xE0; 0x90; 0xE0;
    0xF0; 0x80; 0x80; 0x80; 0xF0;
    0xE0; 0x90; 0x90; 0x90; 0xE0;
    0xF0; 0x80; 0xF0; 0x80; 0xF0;
    0xF0; 0x80; 0xF0; 0x80; 0x80 ].

(** The file system is the one argument [rom_file]: [None] when [fopen]
    fails, [Some bytes] for a readable file of content [bytes].  The result
    is the returned flag together with the machine as the call leaves it. *)
Definition init_chip8 (chip8 : chip8_t) (name : string) (rom_file : option (list Z))
  : bool * chip8_t :=
  let entry_point := 0x200 in
  (* Load font *)
  let chip8 := set_ram chip8 (memcpy (ram chip8) 0 font) in
  (* Load ROM *)
  match rom_file with
  | None => (false, chip8)
  | Some rom =>
      let rom_size := Z.of_nat (length rom) in
      let max_size := Z.of_nat RAM_SIZE - entry_point in
      if rom_size >? max_size then (false, chip8)
      else
        (* fread(dst, rom_size, 1, rom) yields 0 items for rom_size = 0 *)
        if rom_size =? 0 then (false, chip8)
        else
          let chip8 := set_ram chip8 (memcpy (ram chip8) (Z.to_nat entry_point) rom) in
          let chip8 := set_state chip8 RUNNING in
          let chip8 := set_PC chip8 entry_point in
          let chip8 := set_rom_name chip8 (Some name) in
          let chip8 := set_stack_ptr chip8 (Some 0) in
          (true, chip8)
  end.

(** [(ram[PC] << 8) | ram[PC+1]], stored in a [uint16_t]. *)
Definition fetch_opcode (hi lo : Z) : Z :=
  cast_u16 (Z.lor (Z.shiftl hi 8) lo).

(** "Fill out current instruction format". *)
Definition decode (op : Z) : instruction_t :=
  {| opcode := op;
     NNN := cast_u16 (Z.land op 0x0FFF);
     NN := cast_u8 (Z.land op 0x0FF);
     N := cast_u8 (Z.land op 0x0F);
     X := cast_u8 (Z.land (Z.shiftr op 8) 0x0F);
     Y := cast_u8 (Z.land (Z.shiftr op 4) 0x0F) |}.

(** The inner loop of the draw opcode, [for (int8_t j = 7; j >= 0; j--)]:
    [bits] is [j + 1], the number of iterations still to run. *)
Fixpoint draw_row (config : config_t) (sprite_data Y_coord : Z)
    (bits : nat) (X_coord : Z) (chip8 : chip8_t) : result chip8_t :=
  match bits with
  | O => Ok chip8
  | S j =>
      let pixel_idx :=
        cast_u32 (cast_u32 (Y_coord * window_width config) + X_coord) in
      do pixel <- index DisplayOOB (display chip8) pixel_idx;
      let sprite_bit :=
        negb (Z.land sprite_data (Z.shiftl 1 (Z.of_nat j)) =? 0) in
      do chip8 <-
        (if sprite_bit && pixel
         then do v <- store RegOOB (V chip8) 0xF 1; Ok (set_V chip8 v)
         else Ok chip8);
      (* XOR display pixel with sprite pixel/bit *)
      do d <- store DisplayOOB (display chip8) pixel_idx (xorb pixel sprite_bit);
      let chip8 := set_display chip8 d in
      (* Stop drawing this row if hit right edge of screen *)
      let X_coord := cast_u8 (X_coord + 1) in
      if X_coord >=? window_width config then Ok chip8
      else draw_row config sprite_data Y_coord j X_coord chip8
  end.

(** The outer loop, [for (uint8_t i = 0; i < N; ++i)]: [rows] is [N - i]. *)
Fixpoint draw_sprite (config : config_t) (orig_X : Z)
    (rows : nat) (i : Z) (Y_coord : Z) (chip8 : chip8_t) : result chip8_t :=
  match rows with
  | O => Ok chip8
  | S rows' =>
      (* Get next byte/row of sprite data *)
      do sprite_data <- index RamOOB (ram chip8) (I chip8 + i);
      do chip8 <- draw_row config sprite_data Y_coord 8 orig_X chip8;
      (* Stop drawing entire sprite if hit bottom edge of screen *)
      let Y_coord := cast_u8 (Y_coord + 1) in
      if Y_coord >=? window_height config then Ok chip8
      else draw_sprite config orig_X rows' (cast_u8 (i + 1)) Y_coord chip8
  end.

(** [a % b] on unsigned operands. *)
Definition umod (a b : Z) : result Z :=
  if b =? 0 then Fault DivByZero else Ok (a mod b).

(** The configuration [main] runs with. *)
Definition default_config : config_t := snd (set_config_from_args []).

(** [chip8_t chip8 = {0}] of [main]. *)
Definition zero_instruction : instruction_t :=
  {| opcode := 0; NNN := 0; NN := 0; N := 0; X := 0; Y := 0 |}.

Definition zero_chip8 : chip8_t :=
  {| state := QUIT;
     ram := replicate RAM_SIZE 0;
     display := replicate DISPLAY_SIZE false;
     stack := replicate STACK_SIZE 0;
     stack_ptr := None;
     V := replicate 16 0;
     I := 0;
     PC := 0;
     delay_timer := 0;
     sound_timer := 0;
     keypad := replicate 16 false;
     rom_name := None;
     inst := zero_instruction |}.

(** The [switch] of [emulate_instruction], run on the machine whose [PC] has
    been advanced and whose [inst] holds the decoded instruction. *)
Definition execute (chip8 : chip8_t) (config : config_t) : result chip8_t :=
  let i := inst chip8 in
  match Z.land (Z.shiftr (opcode i) 12) 0x0F with
  | 0x0 =>
      if NN i =? 0xE0 then
        (* 0x00E0: Clear the screen *)
        Ok (set_display chip8 (replicate DISPLAY_SIZE false))
      else if NN i =? 0xEE then
        (* 0x00EE: Return from subroutine, PC = *--stack_ptr *)
        match stack_ptr chip8 with
        | None => Fault NullStackPtr
        | Some sp =>
            let chip8 := set_stack_ptr chip8 (Some (sp - 1)) in
            do ret <- index StackOOB (stack chip8) (sp - 1);
            Ok (set_PC chip8 ret)
        end
      else Ok chip8
  | 0x1 =>
      (* 0x1NNN: Jump to address NNN *)
      Ok (set_PC chip8 (NNN i))
  | 0x2 =>
      (* 0x2NNN: Call subroutine at NNN, *stack_ptr++ = PC *)
      match stack_ptr chip8 with
      | None => Fault NullStackPtr
      | Some sp =>
          do stk <- store StackOOB (stack chip8) sp (PC chip8);
          let chip8 := set_stack_ptr (set_stack chip8 stk) (Some (sp + 1)) in
          Ok (set_PC chip8 (NNN i))
      end
  | 0x6 =>
      (* 0x6XNN: Set register VX to NN *)
      do v <- store RegOOB (V chip8) (X i) (NN i);
      Ok (set_V chip8 v)
  | 0x7 =>
      (* 0x7XNN: Set register VX += NN *)
      do vx <- index RegOOB (V chip8) (X i);
      do v <- store RegOOB (V chip8) (X i) (cast_u8 (vx + NN i));
      Ok (set_V chip8 v)
  | 0xA =>
      (* 0xANNN: Set index register I to NNN *)
      Ok (set_I chip8 (NNN i))
  | 0xD =>
      (* 0xDXYN: Draw N-height sprite at coords X,Y; read from location I *)
      do vx <- index RegOOB (V chip8) (X i);
      do xm <- umod vx (window_width config);
      let X_coord := cast_u8 xm in
      do vy <- index RegOOB (V chip8) (Y i);
      do ym <- umod vy (window_height config);
      let Y_coord := cast_u8 ym in
      let orig_X := X_coord in
      (* Init carry flag VF to 0 *)
      do v <- store RegOOB (V chip8) 0xF 0;
      let chip8 := set_V chip8 v in
      draw_sprite config orig_X (Z.to_nat (N i)) 0 Y_coord chip8
  | _ => Ok chip8 (* Unimplemented/invalid *)
  end.

Definition emulate_instruction (chip8 : chip8_t) (config : config_t)
  : result chip8_t :=
  (* Get next opcode from ram *)
  do hi <- index RamOOB (ram chip8) (PC chip8);
  do lo <- index RamOOB (ram chip8) (PC chip8 + 1);
  let op := fetch_opcode hi lo in
  (* Increment PC for next opcode *)
  let chip8 := set_PC chip8 (cast_u16 (PC chip8 + 2)) in
  (* Fill out current instruction format *)
  let chip8 := set_inst chip8 (decode op) in
  (* Emulate opcode *)
  execute chip8 config.

(** * Part II: vocabulary of the statements *)

(** The machine [main] starts cycling on, for a readable ROM file [rom]. *)
Definition boot (rom : list Z) : chip8_t :=
  snd (init_chip8 zero_chip8 "rom.ch8" (Some rom)).

(** [n] iterations of the main loop with no input event pending. *)
Fixpoint run (n : nat) (chip8 : chip8_t) : result chip8_t :=
  match n with
  | O => Ok chip8
  | S n' =>
      do chip8 <- emulate_instruction chip8 default_config;
      run n' chip8
  end.

(** The machine a run ended on ([zero_chip8] if it faulted). *)
Definition state_of (r : result chip8_t) : chip8_t :=
  match r with
  | Ok c => c
  | Fault _ => zero_chip8
  end.

(** The machines [main] can be on between two cycles when started on the
    ROM file [rom]: [handle_input] may change the run state at any time. *)
Inductive reachable (rom : list Z) : chip8_t -> Prop :=
| reach_init (name : string) (c : chip8_t) :
    init_chip8 zero_chip8 name (Some rom) = (true, c) -> reachable rom c
| reach_cycle (c c' : chip8_t) :
    reachable rom c -> emulate_instruction c default_config = Ok c' ->
    reachable rom c'
| reach_input (c : chip8_t) (st : emulator_state_t) :
    reachable rom c -> reachable rom (set_state c st).

(** The 16-bit word a fetch at address [a] reads. *)
Definition word_at (mem : list Z) (a : Z) : Z :=
  fetch_opcode (mem !!! Z.to_nat a) (mem !!! Z.to_nat (a + 1)).

(** The opcode the next cycle of [c] fetches. *)
Definition opcode_at (c : chip8_t) : Z := word_at (ram c) (PC c).

Definition top_nibble (op : Z) : Z := Z.land (Z.shiftr op 12) 0x0F.

(** Register [V[k]]. *)
Definition reg (c : chip8_t) (k : Z) : Z := V c !!! Z.to_nat k.

(** The array sizes fixed by the declaration of [chip8_t]. *)
Record wf (c : chip8_t) : Prop := {
  wf_ram : length (ram c) = RAM_SIZE;
  wf_display : length (display c) = DISPLAY_SIZE;
  wf_stack : length (stack c) = STACK_SIZE;
  wf_V : length (V c) = 16%nat
}.

(** The draw loops touch [display] and [V] only. *)
Definition with_dv (c : chip8_t) (d : list bool) (v : list Z) : chip8_t :=
  set_V (set_display c d) v.

(** Cell (x, y) of a 64-column row-major display. *)
Definition pixel_at (d : list bool) (x y : Z) : bool :=
  d !!! Z.to_nat (y * 64 + x).

(** Pixel of a sprite row [data] drawn over columns [X0 .. X0 + n - 1], the
    bit of weight [2^(n-1)] being the leftmost one. *)
Definition row_mask (data n X0 x : Z) : bool :=
  bool_decide (X0 <= x < X0 + n) && Z.testbit data (n - 1 - (x - X0)).

(** A collision within one row: a set sprite bit over a cell that is on. *)
Definition row_hit (d : list bool) (data n X0 Yc : Z) : Prop :=
  exists x, 0 <= x < 64 /\ row_mask data n X0 x = true /\ pixel_at d x Yc = true.

(** Pixel (x, y) of the sprite whose [rows] rows are the bytes of [mem] from
    address [base] on, drawn with its top-left corner at (X0, Y0). *)
Definition sprite_mask (mem : list Z) (base rows X0 Y0 x y : Z) : bool :=
  bool_decide (Y0 <= y < Y0 + rows) &&
  row_mask (mem !!! Z.to_nat (base + (y - Y0))) 8 X0 x.

(** A collision: a set sprite bit over a cell of the screen that is on. *)
Definition sprite_hit (d : list bool) (mem : list Z) (base rows X0 Y0 : Z) : Prop :=
  exists x y, 0 <= x < 64 /\ 0 <= y < 32 /\
    sprite_mask mem base rows X0 Y0 x y = true /\ pixel_at d x y = true.

(** The opcodes [execute] has a case for. *)
Definition implemented (op : Z) : bool :=
  let t := top_nibble op in
  let low := Z.land op 0xFF in
  (t =? 0) && ((low =? 0xE0) || (low =? 0xEE))
  || (t =? 1) || (t =? 2) || (t =? 6) || (t =? 7) || (t =? 0xA) || (t =? 0xD).

(** The machine [execute] runs on: the one of [c] after fetch and decode. *)
Definition fetched (c : chip8_t) : chip8_t :=
  set_inst (set_PC c (PC c + 2)) (decode (opcode_at c)).

Definition pc_inv (c : chip8_t) : Prop :=
  wf c /\ 0 <= PC c <= 4096 /\ Forall (fun a => 0 <= a <= 4096) (stack c).

(** * Part III: example machines *)

(** V3 = 250 after [63FA]; the next opcode is [730A]. *)
Definition add_demo : chip8_t :=
  state_of (run 1 (boot [0x63; 0xFA; 0x73; 0x0A])).

(** The machine right after construction on a ROM starting with [8120]
    (a register move, which [execute] has no case for). *)
Definition noop_demo : chip8_t := boot [0x81; 0x20].

(** The ROM [A208 D001 D001 0000 80]: a one-pixel sprite drawn twice at (0,0). *)
Definition pixel_rom : list Z :=
  [0xA2; 0x08; 0xD0; 0x01; 0xD0; 0x01; 0x00; 0x00; 0x80].

(** Before the first draw: cell (0,0) is off. *)
Definition blank_demo : chip8_t := state_of (run 1 (boot pixel_rom)).

(** Before the second draw: cell (0,0) is on. *)
Definition collide_demo : chip8_t := state_of (run 2 (boot pixel_rom)).

(** The ROM [603C A208 D011 0000 FF]: V0 = 60, then a full 8-pixel row
    drawn at column V0 = 60 of row V1 = 0. *)
Definition clip_rom : list Z :=
  [0x60; 0x3C; 0xA2; 0x08; 0xD0; 0x11; 0x00; 0x00; 0xFF].

Definition clip_demo : chip8_t := state_of (run 2 (boot clip_rom)).

(** The ROM [AFFF D002]: I = 4095, then a two-row sprite drawn at (0,0). *)
Definition past_ram_demo : chip8_t :=
  state_of (run 1 (boot [0xAF; 0xFF; 0xD0; 0x02])).

(** The ROM [2204 0000 00EE]: a call at 0x200 to a subroutine that returns. *)
Definition call_demo : chip8_t := boot [0x22; 0x04; 0x00; 0x00; 0x00; 0xEE].

(** [00EE] as the first instruction; and the ROM [2200], a call to itself,
    after 12 cycles. *)
Definition underflow_demo : chip8_t := boot [0x00; 0xEE].
Definition overflow_demo : chip8_t := state_of (run 12 (boot [0x22; 0x00])).

(** The ROM [1201]: a jump to the odd address 0x201. *)
Definition odd_jump_rom : list Z := [0x12; 0x01].
Definition odd_pc_demo : chip8_t := state_of (run 1 (boot odd_jump_rom)).

(** A ROM file one byte longer than the 3584 bytes that fit above 0x200. *)
Definition oversized_rom : list Z := replicate 3585 0.

(** * Part III, continued: further vocabulary *)

(** The return addresses on the call stack, oldest first: the slots below
    the one [stack_ptr] points to. *)
Definition call_stack (c : chip8_t) : list Z :=
  match stack_ptr c with
  | Some sp => take (Z.to_nat sp) (stack c)
  | None => []
  end.

(** What holds of every machine [main] cycles on, beside the array sizes:
    registers hold bytes, the index register a 12-bit address, and
    [stack_ptr] points into [stack] or just past it. *)
Definition machine_inv (c : chip8_t) : Prop :=
  wf c /\
  Forall (fun b => 0 <= b < 256) (V c) /\
  0 <= I c < 4096 /\
  0 <= PC c <= 4096 /\
  Forall (fun a => 0 <= a <= 4096) (stack c) /\
  exists sp, stack_ptr c = Some sp /\ 0 <= sp <= 12.

(** The ROM [611F AFFF D01F]: V1 = 31, I = 4095, then a 15-row sprite drawn
    from row 31, of which only the first row is on the screen. *)
Definition bottom_rom : list Z := [0x61; 0x1F; 0xAF; 0xFF; 0xD0; 0x1F].

Definition bottom_demo : chip8_t := state_of (run 2 (boot bottom_rom)).

(** [collide_demo] with the next opcode turned into [D000], the index
    register pointing outside memory and 7 in register 15. *)
Definition no_rows_demo : chip8_t :=
  set_V (set_I (set_ram collide_demo (<[517%nat := 0x00]> (ram collide_demo)))
           0xFFFF)
        (<[15%nat := 7]> (V collide_demo)).

(** * Part III, continued: input, rendering and the main loop *)

(** Conversion of a [uint32_t] to [int], as [rect.x = ...] performs it
    (two's complement wrap-around). *)
Definition cast_int (z : Z) : Z :=
  let m := z mod 2 ^ 32 in
  if m <? 2 ^ 31 then m else m - 2 ^ 32.

(** [a / b] on unsigned operands. *)
Definition udiv (a b : Z) : result Z :=
  if b =? 0 then Fault DivByZero else Ok (a / b).

(** The events [handle_input] tells apart: [event.type], and for a key
    press [event.key.keysym.sym]. *)
Inductive SDL_Keycode : Type :=
| SDLK_ESCAPE
| SDLK_SPACE
| SDLK_other (sym : Z).

Inductive SDL_Event : Type :=
| SDL_QUIT
| SDL_KEYDOWN (sym : SDL_Keycode)
| SDL_KEYUP (sym : SDL_Keycode)
| SDL_other (type : Z).

(** [handle_input] on the queue of pending events [events], of which
    [SDL_PollEvent] takes the first: the machine, the events left in the
    queue and the lines written with [puts]. *)
Fixpoint handle_input (chip8 : chip8_t) (events : list SDL_Event)
  : chip8_t * list SDL_Event * list string :=
  match events with
  | [] => (chip8, [], [])
  | event :: events =>
      match event with
      | SDL_QUIT => (set_state chip8 QUIT, events, [])
      | SDL_KEYDOWN SDLK_ESCAPE => (set_state chip8 QUIT, events, [])
      | SDL_KEYDOWN SDLK_SPACE =>
          (* Space bar *)
          match state chip8 with
          | RUNNING =>
              (set_state chip8 PAUSED, events, ["------- PAUSED -------"%string])
          | _ =>
              (set_state chip8 RUNNING, events, ["------- RESUMED -------"%string])
          end
      | SDL_KEYDOWN (SDLK_other _) => handle_input chip8 events
      | SDL_KEYUP _ => handle_input chip8 events
      | SDL_other _ => handle_input chip8 events
      end
  end.

Module SDL_Rect.
Record t : Type := mk { x : Z; y : Z; w : Z; h : Z }.
End SDL_Rect.

(** The calls made on the renderer, in order. *)
Inductive sdl_call : Type :=
| SDL_SetRenderDrawColor (r g b a : Z)
| SDL_RenderClear
| SDL_RenderFillRect (rect : SDL_Rect.t)
| SDL_RenderDrawRect (rect : SDL_Rect.t)
| SDL_RenderPresent
| SDL_Delay (ms : Z).

(** [(color >> shift) & 0xFF], stored in a [uint8_t]. *)
Definition channel (color shift : Z) : Z :=
  cast_u8 (Z.land (Z.shiftr color shift) 0xFF).

Definition clear_screen (config : config_t) : list sdl_call :=
  let r := channel (bg_color config) 24 in
  let g := channel (bg_color config) 16 in
  let b := channel (bg_color config) 8 in
  let a := channel (bg_color config) 0 in
  [SDL_SetRenderDrawColor r g b a; SDL_RenderClear].

(** The loop of [update_screen], [for (uint32_t i = 0; i < sizeof
    chip8.display; i++)]: [cells] is the number of iterations left. *)
Fixpoint update_screen_cells (config : config_t) (chip8 : chip8_t)
    (cells : nat) (i : Z) : result (list sdl_call) :=
  match cells with
  | O => Ok []
  | S cells' =>
      let fg_r := channel (fg_color config) 24 in
      let fg_g := channel (fg_color config) 16 in
      let fg_b := channel (fg_color config) 8 in
      let fg_a := channel (fg_color config) 0 in
      let bg_r := channel (bg_color config) 24 in
      let bg_g := channel (bg_color config) 16 in
      let bg_b := channel (bg_color config) 8 in
      let bg_a := channel (bg_color config) 0 in
      (* Translate 1D index i value to 2D X/Y coordinates *)
      do col <- umod i (window_width config);
      do row <- udiv i (window_width config);
      let rect :=
        SDL_Rect.mk (cast_int (cast_u32 (col * scale_factor config)))
                    (cast_int (cast_u32 (row * scale_factor config)))
                    (cast_int (scale_factor config))
                    (cast_int (scale_factor config)) in
      do pixel <- index DisplayOOB (display chip8) i;
      let calls :=
        if pixel then
          (* If pixel is on, draw foreground color *)
          [SDL_SetRenderDrawColor fg_r fg_g fg_b fg_a; SDL_RenderFillRect rect]
          ++ (if pixel_outlines config
              then [SDL_SetRenderDrawColor bg_r bg_g bg_b bg_a;
                    SDL_RenderDrawRect rect]
              else [])
        else
          (* Pixel is off, draw background color *)
          [SDL_SetRenderDrawColor bg_r bg_g bg_b bg_a; SDL_RenderFillRect rect] in
      do rest <- update_screen_cells config chip8 cells' (cast_u32 (i + 1));
      Ok (calls ++ rest)
  end.

Definition update_screen (config : config_t) (chip8 : chip8_t)
  : result (list sdl_call) :=
  do calls <- update_screen_cells config chip8 DISPLAY_SIZE 0;
  Ok (calls ++ [SDL_RenderPresent]).

(** One iteration of the loop of [main], entered with a run state other
    than [QUIT]: the machine, the events left, the lines printed and the
    calls made on SDL. *)
Definition main_loop_body (config : config_t) (chip8 : chip8_t)
    (events : list SDL_Event)
  : result (chip8_t * list SDL_Event * list string * list sdl_call) :=
  (* Handle user input *)
  let '(chip8, events, out) := handle_input chip8 events in
  match state chip8 with
  | PAUSED => Ok (chip8, events, out, [])
  | _ =>
      do chip8 <- emulate_instruction chip8 config;
      (* Delay for ~ 60hz, update window *)
      do frame <- update_screen config chip8;
      Ok (chip8, events, out, SDL_Delay 16 :: frame)
  end.

(** At most [fuel] iterations of [while (chip8.state != QUIT)], on the
    events pending at the start. *)
Fixpoint main_loop (fuel : nat) (config : config_t) (chip8 : chip8_t)
    (events : list SDL_Event)
  : result (chip8_t * list SDL_Event * list string * list sdl_call) :=
  match fuel with
  | O => Ok (chip8, events, [], [])
  | S fuel' =>
      match state chip8 with
      | QUIT => Ok (chip8, events, [], [])
      | _ =>
          do r <- main_loop_body config chip8 events;
          let '(chip8, events, out, calls) := r in
          do r' <- main_loop fuel' config chip8 events;
          let '(chip8, events, out', calls') := r' in
          Ok (chip8, events, out ++ out', calls ++ calls')
      end
  end.

(** An event [handle_input] acts on; every other event is dropped. *)
Definition decisive (event : SDL_Event) : bool :=
  match event with
  | SDL_QUIT | SDL_KEYDOWN SDLK_ESCAPE | SDL_KEYDOWN SDLK_SPACE => true
  | _ => false
  end.

(** The run state a decisive event leads to. *)
Definition next_state (st : emulator_state_t) (event : SDL_Event)
  : emulator_state_t :=
  match event with
  | SDL_KEYDOWN SDLK_SPACE =>
      match st with RUNNING => PAUSED | _ => RUNNING end
  | _ => QUIT
  end.

(** The window rectangle of display cell [k] under [default_config]. *)
Definition cell_rect (k : nat) : SDL_Rect.t :=
  SDL_Rect.mk (20 * (Z.of_nat k mod 64)) (20 * (Z.of_nat k / 64)) 20 20.

(** The calls [update_screen] makes for cell [k] under [default_config]:
    white fill and black outline when on, black fill when off. *)
Definition cell_calls (k : nat) (on : bool) : list sdl_call :=
  if on then
    [SDL_SetRenderDrawColor 255 255 255 255; SDL_RenderFillRect (cell_rect k);
     SDL_SetRenderDrawColor 0 0 0 255; SDL_RenderDrawRect (cell_rect k)]
  else
    [SDL_SetRenderDrawColor 0 0 0 255; SDL_RenderFillRect (cell_rect k)].

(** The frame a rendering produced (empty if it faulted). *)
Definition state_of_frame (r : result (list sdl_call)) : list sdl_call :=
  match r with
  | Ok calls => calls
  | Fault _ => []
  end.

(** The machine right after construction on the ROM [D125], a draw of the
    5 rows at I = 0 at column V1, row V2. *)
Definition decode_demo : chip8_t := boot [0xD1; 0x25].

(** * Part IV: proofs *)

Ltac exec_case H :=
  unfold execute; cbv zeta;
  change (Z.land (Z.shiftr (opcode (inst ?c)) 12) 15)
    with (top_nibble (opcode (inst c)));
  rewrite H; reflexivity.

(** Side conditions on a concrete machine, by evaluation. *)
Ltac by_eval :=
  lazymatch goal with
  | |- wf _ => split; vm_compute; reflexivity
  | |- _ <= _ <= _ => vm_compute; split; discriminate
  | |- _ <= _ < _ => vm_compute; split; [discriminate|reflexivity]
  | |- _ <= _ => vm_compute; discriminate
  | |- _ < _ => vm_compute; reflexivity
  | |- _ = _ => vm_compute; reflexivity
  end.

(** ** The error monad and the checked accessors *)

Lemma bind_Ok {A B : Type} (a : A) (k : A -> result B) : bind (Ok a) k = k a.
Proof. reflexivity. Qed.

Section Accessors.
Context {A : Type} `{Inhabited A}.
Variable oob : Z -> fault.

Lemma index_ok (arr : list A) (i : Z) :
  0 <= i < Z.of_nat (length arr) ->
  index oob arr i = Ok (arr !!! Z.to_nat i).
Proof.
  intros Hi. unfold index.
  rewrite bool_decide_eq_true_2 by lia.
  destruct (lookup_lt_is_Some_2 arr (Z.to_nat i)) as [a Ha]; [lia|].
  rewrite Ha. by rewrite (list_lookup_total_correct _ _ _ Ha).
Qed.

Lemma index_oob (arr : list A) (i : Z) :
  ~ (0 <= i < Z.of_nat (length arr)) ->
  index oob arr i = Fault (oob i).
Proof.
  intros Hi. unfold index. case_bool_decide; [|done].
  rewrite lookup_ge_None_2; [done|lia].
Qed.

Lemma index_inv (arr : list A) (i : Z) (a : A) :
  index oob arr i = Ok a ->
  0 <= i < Z.of_nat (length arr) /\ arr !! Z.to_nat i = Some a.
Proof.
  unfold index. case_bool_decide; [|done].
  destruct (arr !! Z.to_nat i) eqn:E; [|done].
  intros [= ->]. split; [|done].
  apply lookup_lt_Some in E. lia.
Qed.

Lemma store_ok (arr : list A) (i : Z) (a : A) :
  0 <= i < Z.of_nat (length arr) ->
  store oob arr i a = Ok (<[Z.to_nat i := a]> arr).
Proof. intros Hi. unfold store. by rewrite bool_decide_eq_true_2. Qed.

Lemma store_oob (arr : list A) (i : Z) (a : A) :
  ~ (0 <= i < Z.of_nat (length arr)) ->
  store oob arr i a = Fault (oob i).
Proof. intros Hi. unfold store. by rewrite bool_decide_eq_false_2. Qed.
End Accessors.

(** ** Bit fields and narrowing stores *)

Lemma land_ones_bounds (a : Z) (n : Z) :
  0 <= n -> 0 <= Z.land a (Z.ones n) < 2 ^ n.
Proof.
  intros Hn. rewrite Z.land_ones by done.
  apply Z.mod_pos_bound. by apply Z.pow_pos_nonneg.
Qed.

Lemma cast_u8_small (z : Z) : 0 <= z < 256 -> cast_u8 z = z.
Proof. intros. unfold cast_u8. by apply Z.mod_small. Qed.

Lemma cast_u16_small (z : Z) : 0 <= z < 65536 -> cast_u16 z = z.
Proof. intros. unfold cast_u16. by apply Z.mod_small. Qed.

Lemma cast_u32_small (z : Z) : 0 <= z < 4294967296 -> cast_u32 z = z.
Proof. intros. unfold cast_u32. by apply Z.mod_small. Qed.

Lemma fetch_opcode_bytes (hi lo : Z) :
  0 <= hi < 256 -> 0 <= lo < 256 ->
  fetch_opcode hi lo = Z.lor (Z.shiftl hi 8) lo /\
  fetch_opcode hi lo = hi * 256 + lo.
Proof.
  intros Hhi Hlo. unfold fetch_opcode.
  assert (Z.land (Z.shiftl hi 8) lo = 0) as Hdisj.
  { apply Z.bits_inj'. intros n Hn. rewrite Z.land_spec, Z.bits_0.
    destruct (Z.lt_ge_cases n 8).
    - by rewrite Z.shiftl_spec_low.
    - rewrite (Z.bits_above_log2 lo n), andb_false_r; [done|lia|].
      destruct (Z.eq_dec lo 0) as [->|]; [simpl; lia|].
      apply Z.lt_le_trans with 8; [|done].
      apply Z.log2_lt_pow2; lia. }
  assert (Z.lor (Z.shiftl hi 8) lo = hi * 256 + lo) as ->.
  { rewrite <- Z.lxor_lor, <- Z.add_nocarry_lxor by done.
    by rewrite Z.shiftl_mul_pow2. }
  split; apply cast_u16_small; lia.
Qed.

Lemma decode_ranges (op : Z) :
  0 <= NNN (decode op) < 4096 /\ 0 <= NN (decode op) < 256 /\
  0 <= N (decode op) < 16 /\ 0 <= X (decode op) < 16 /\
  0 <= Y (decode op) < 16.
Proof.
  unfold decode; simpl.
  pose proof (land_ones_bounds op 12 ltac:(lia)) as H12.
  pose proof (land_ones_bounds op 8 ltac:(lia)) as H8.
  pose proof (land_ones_bounds op 4 ltac:(lia)) as H4.
  pose proof (land_ones_bounds (Z.shiftr op 8) 4 ltac:(lia)) as HX.
  pose proof (land_ones_bounds (Z.shiftr op 4) 4 ltac:(lia)) as HY.
  change (Z.ones 12) with 0xFFF in H12. change (Z.ones 8) with 0xFF in H8.
  change (Z.ones 4) with 0xF in H4, HX, HY.
  change (2 ^ 12) with 4096 in H12. change (2 ^ 8) with 256 in H8.
  change (2 ^ 4) with 16 in H4, HX, HY.
  rewrite cast_u16_small, !cast_u8_small by lia. lia.
Qed.

Lemma decode_fields (op : Z) :
  decode op =
  {| opcode := op;
     NNN := Z.land op 0x0FFF;
     NN := Z.land op 0x00FF;
     N := Z.land op 0x000F;
     X := Z.land (Z.shiftr op 8) 0xF;
     Y := Z.land (Z.shiftr op 4) 0xF |}.
Proof.
  unfold decode.
  pose proof (land_ones_bounds op 12 ltac:(lia)) as H12.
  pose proof (land_ones_bounds op 8 ltac:(lia)) as H8.
  pose proof (land_ones_bounds op 4 ltac:(lia)) as H4.
  pose proof (land_ones_bounds (Z.shiftr op 8) 4 ltac:(lia)) as HX.
  pose proof (land_ones_bounds (Z.shiftr op 4) 4 ltac:(lia)) as HY.
  change (Z.ones 12) with 0xFFF in H12. change (Z.ones 8) with 0xFF in H8.
  change (Z.ones 4) with 0xF in H4, HX, HY.
  change (2 ^ 12) with 4096 in H12. change (2 ^ 8) with 256 in H8.
  change (2 ^ 4) with 16 in H4, HX, HY.
  rewrite cast_u16_small, !cast_u8_small by lia. done.
Qed.

(** ** The two loops of the draw opcode *)

Lemma default_width : window_width default_config = 64.
Proof. reflexivity. Qed.

Lemma default_height : window_height default_config = 32.
Proof. reflexivity. Qed.

Lemma with_dv_id (c : chip8_t) : with_dv c (display c) (V c) = c.
Proof. by destruct c. Qed.

Lemma with_dv_with_dv (c : chip8_t) d v d' v' :
  with_dv (with_dv c d v) d' v' = with_dv c d' v'.
Proof. reflexivity. Qed.

Lemma set_display_with_dv (c : chip8_t) d v d' :
  set_display (with_dv c d v) d' = with_dv c d' v.
Proof. reflexivity. Qed.

Lemma sprite_bit_testbit (data j : Z) :
  0 <= j ->
  negb (Z.land data (Z.shiftl 1 j) =? 0) = Z.testbit data j.
Proof.
  intros Hj. rewrite Z.shiftl_1_l.
  destruct (Z.testbit data j) eqn:Hb.
  - apply negb_true_iff, Z.eqb_neq. intros H0.
    assert (Z.testbit (Z.land data (2 ^ j)) j = true) as Ht.
    { by rewrite Z.land_spec, Hb, Z.pow2_bits_true. }
    rewrite H0, Z.bits_0 in Ht. done.
  - apply negb_false_iff, Z.eqb_eq.
    apply Z.bits_inj'. intros n Hn.
    rewrite Z.land_spec, Z.bits_0, Z.pow2_bits_eqb by done.
    destruct (Z.eqb_spec j n) as [->|]; [by rewrite Hb|by rewrite andb_false_r].
Qed.

Lemma row_mask_0 (data X0 x : Z) : row_mask data 0 X0 x = false.
Proof. unfold row_mask. rewrite bool_decide_eq_false_2; [done|lia]. Qed.

Lemma row_mask_S (data : Z) (j : nat) (X0 x : Z) :
  row_mask data (Z.of_nat (S j)) X0 x =
  if bool_decide (x = X0) then Z.testbit data (Z.of_nat j)
  else row_mask data (Z.of_nat j) (X0 + 1) x.
Proof.
  unfold row_mask. destruct (decide (x = X0)) as [->|Hne].
  - rewrite (bool_decide_eq_true_2 (X0 = X0)) by done.
    rewrite bool_decide_eq_true_2 by lia. simpl. f_equal. lia.
  - rewrite (bool_decide_eq_false_2 (x = X0)) by done.
    destruct (decide (X0 + 1 <= x < X0 + 1 + Z.of_nat j)).
    + rewrite !bool_decide_eq_true_2 by lia. simpl. f_equal. lia.
    + rewrite !bool_decide_eq_false_2 by lia. done.
Qed.

Lemma pixel_at_insert (d : list bool) (x y x' y' : Z) (b : bool) :
  length d = DISPLAY_SIZE ->
  0 <= x < 64 -> 0 <= y < 32 -> 0 <= x' < 64 -> 0 <= y' < 32 ->
  pixel_at (<[Z.to_nat (y' * 64 + x') := b]> d) x y =
  if bool_decide (x = x' /\ y = y') then b else pixel_at d x y.
Proof.
  intros Hd Hx Hy Hx' Hy'. unfold pixel_at. case_bool_decide as Heq.
  - destruct Heq as [-> ->]. apply list_lookup_total_insert_eq.
    rewrite Hd. unfold DISPLAY_SIZE. lia.
  - apply list_lookup_total_insert_ne. lia.
Qed.

Lemma draw_row_S config data Yc j Xc c :
  draw_row config data Yc (S j) Xc c =
  let pixel_idx :=
    cast_u32 (cast_u32 (Yc * window_width config) + Xc) in
  do pixel <- index DisplayOOB (display c) pixel_idx;
  let sprite_bit :=
    negb (Z.land data (Z.shiftl 1 (Z.of_nat j)) =? 0) in
  do c1 <-
    (if sprite_bit && pixel
     then do v <- store RegOOB (V c) 0xF 1; Ok (set_V c v)
     else Ok c);
  do d <- store DisplayOOB (display c1) pixel_idx (xorb pixel sprite_bit);
  let c2 := set_display c1 d in
  let Xn := cast_u8 (Xc + 1) in
  if Xn >=? window_width config then Ok c2
  else draw_row config data Yc j Xn c2.
Proof. reflexivity. Qed.

Lemma draw_row_spec (data Yc : Z) (n : nat) :
  forall (Xc : Z) (c : chip8_t),
    length (display c) = DISPLAY_SIZE -> length (V c) = 16%nat ->
    0 <= Yc < 32 -> 0 <= Xc < 64 ->
    exists d v,
      draw_row default_config data Yc n Xc c = Ok (with_dv c d v) /\
      length d = DISPLAY_SIZE /\
      (forall x y, 0 <= x < 64 -> 0 <= y < 32 ->
         pixel_at d x y =
         xorb (pixel_at (display c) x y)
              (bool_decide (y = Yc) && row_mask data (Z.of_nat n) Xc x)) /\
      (row_hit (display c) data (Z.of_nat n) Xc Yc /\ v = <[15%nat := 1]> (V c) \/
       ~ row_hit (display c) data (Z.of_nat n) Xc Yc /\ v = V c).
Proof.
  induction n as [|j IH]; intros Xc c Hd Hv HY HX.
  - exists (display c), (V c). simpl. rewrite with_dv_id.
    split; [done|]. split; [done|]. split.
    + intros x y _ _. by rewrite row_mask_0, andb_false_r, xorb_false_r.
    + right. split; [|done]. intros (x & _ & Hm & _).
      by rewrite row_mask_0 in Hm.
  - rewrite draw_row_S, default_width. cbv zeta.
    rewrite (cast_u32_small (Yc * 64)) by lia.
    rewrite (cast_u32_small (Yc * 64 + Xc)) by lia.
    rewrite index_ok by (rewrite Hd; unfold DISPLAY_SIZE; lia).
    rewrite sprite_bit_testbit by lia.
    fold (pixel_at (display c) Xc Yc).
    set (pixel := pixel_at (display c) Xc Yc).
    set (bit := Z.testbit data (Z.of_nat j)).
    rewrite bind_Ok.
    set (v1 := if bit && pixel then <[15%nat := 1]> (V c) else V c).
    set (d1 := <[Z.to_nat (Yc * 64 + Xc) := xorb pixel bit]> (display c)).
    assert (length d1 = DISPLAY_SIZE) as Hd1.
    { unfold d1. by rewrite length_insert. }
    assert (length v1 = 16%nat) as Hv1.
    { unfold v1. destruct (bit && pixel); [by rewrite length_insert|done]. }
    assert (forall x y, 0 <= x < 64 -> 0 <= y < 32 ->
              pixel_at d1 x y =
              if bool_decide (x = Xc /\ y = Yc) then xorb pixel bit
              else pixel_at (display c) x y) as Hd1px.
    { intros x y Hx Hy. unfold d1. by apply pixel_at_insert. }
    assert ((do c1 <- (if bit && pixel
                       then do v <- store RegOOB (V c) 15 1; Ok (set_V c v)
                       else Ok c);
             do d <- store DisplayOOB (display c1) (Yc * 64 + Xc) (xorb pixel bit);
             (if cast_u8 (Xc + 1) >=? 64 then Ok (set_display c1 d)
              else draw_row default_config data Yc j (cast_u8 (Xc + 1))
                     (set_display c1 d))) =
            (if Xc + 1 >=? 64 then Ok (with_dv c d1 v1)
             else draw_row default_config data Yc j (Xc + 1) (with_dv c d1 v1)))
      as ->.
    { rewrite cast_u8_small by lia. unfold v1.
      destruct (bit && pixel); simpl.
      - rewrite store_ok by (rewrite Hv; lia). simpl.
        rewrite store_ok by (rewrite Hd; unfold DISPLAY_SIZE; lia). simpl.
        done.
      - rewrite store_ok by (rewrite Hd; unfold DISPLAY_SIZE; lia). simpl.
        by destruct c. }
    assert (forall x, 0 <= x < 64 -> x <> Xc ->
              pixel_at d1 x Yc = pixel_at (display c) x Yc) as Hrest.
    { intros x Hx Hne. rewrite Hd1px by lia.
      rewrite bool_decide_eq_false_2; [done|]. intros [? _]. done. }
    assert (bit && pixel = true -> row_hit (display c) data (Z.of_nat (S j)) Xc Yc)
      as Hfirst.
    { intros Hbp. apply andb_true_iff in Hbp as [Hb Hp].
      exists Xc. split; [done|]. split; [|done].
      rewrite row_mask_S, bool_decide_eq_true_2; done. }
    destruct (Z.geb_spec (Xc + 1) 64) as [Hedge|Hin].
    + (* right edge reached: the row stops here *)
      exists d1, v1. split; [done|]. split; [done|]. split.
      * intros x y Hx Hy. rewrite Hd1px, row_mask_S by done.
        case_bool_decide as Hxy.
        -- destruct Hxy as [-> ->].
           rewrite !bool_decide_eq_true_2 by done. done.
        -- destruct (decide (y = Yc)) as [->|Hne].
           ++ rewrite (bool_decide_eq_false_2 (x = Xc)) by tauto.
              unfold row_mask. rewrite (bool_decide_eq_false_2 (_ <= _ < _)) by lia.
              by rewrite andb_false_r, xorb_false_r.
           ++ rewrite (bool_decide_eq_false_2 (y = Yc)) by done.
              by rewrite xorb_false_r.
      * unfold v1. destruct (bit && pixel) eqn:Hbp.
        -- left. split; [by apply Hfirst|done].
        -- right. split; [|done]. intros (x & Hx & Hm & Hp).
           rewrite row_mask_S in Hm. case_bool_decide as Hxc.
           ++ subst x. fold pixel in Hp. fold bit in Hm.
              by rewrite Hm, Hp in Hbp.
           ++ unfold row_mask in Hm.
              rewrite bool_decide_eq_false_2 in Hm by lia. done.
    + (* the rest of the row, from column Xc + 1 *)
      destruct (IH (Xc + 1) (with_dv c d1 v1)) as (d & v & Hrun & Hlen & Hpx & Hflag);
        [done|done|done|lia|].
      rewrite with_dv_with_dv in Hrun. simpl in Hpx, Hflag.
      exists d, v. split; [done|]. split; [done|]. split.
      * intros x y Hx Hy. rewrite Hpx, Hd1px, row_mask_S by done.
        case_bool_decide as Hxy.
        -- destruct Hxy as [-> ->].
           rewrite !bool_decide_eq_true_2 by done.
           unfold row_mask. rewrite bool_decide_eq_false_2 by lia.
           simpl. by rewrite xorb_false_r.
        -- destruct (decide (y = Yc)) as [->|Hne].
           ++ by rewrite (bool_decide_eq_false_2 (x = Xc)) by tauto.
           ++ by rewrite !(bool_decide_eq_false_2 (y = Yc)) by done.
      * assert (forall x, x <> Xc ->
                  row_mask data (Z.of_nat (S j)) Xc x =
                  row_mask data (Z.of_nat j) (Xc + 1) x) as Hmask.
        { intros x Hne. rewrite row_mask_S.
          by rewrite bool_decide_eq_false_2. }
        assert (forall x, row_mask data (Z.of_nat j) (Xc + 1) x = true -> x <> Xc)
          as Hright.
        { intros x Hm ->. unfold row_mask in Hm.
          rewrite bool_decide_eq_false_2 in Hm by lia. done. }
        destruct Hflag as [[(x & Hx & Hm & Hp) ->]|[Hno ->]].
        -- left. split.
           ++ exists x. pose proof (Hright x Hm).
              rewrite Hmask, <- Hrest by done. done.
           ++ unfold v1. destruct (bit && pixel); [|done].
              by rewrite list_insert_insert_eq.
        -- unfold v1. destruct (bit && pixel) eqn:Hbp.
           ++ left. split; [by apply Hfirst|done].
           ++ right. split; [|done]. intros (x & Hx & Hm & Hp).
              destruct (decide (x = Xc)) as [->|Hne].
              ** rewrite row_mask_S, bool_decide_eq_true_2 in Hm by done.
                 fold pixel in Hp. fold bit in Hm.
                 by rewrite Hm, Hp in Hbp.
              ** apply Hno. exists x.
                 rewrite <- Hmask, Hrest by done. done.
Qed.

Lemma sprite_mask_0 mem base X0 Y0 x y : sprite_mask mem base 0 X0 Y0 x y = false.
Proof. unfold sprite_mask. rewrite bool_decide_eq_false_2; [done|lia]. Qed.

Lemma sprite_mask_S mem base (r : nat) X0 Y0 x y :
  sprite_mask mem base (Z.of_nat (S r)) X0 Y0 x y =
  if bool_decide (y = Y0) then row_mask (mem !!! Z.to_nat base) 8 X0 x
  else sprite_mask mem (base + 1) (Z.of_nat r) X0 (Y0 + 1) x y.
Proof.
  unfold sprite_mask. destruct (decide (y = Y0)) as [->|Hne].
  - rewrite (bool_decide_eq_true_2 (Y0 = Y0)) by done.
    rewrite bool_decide_eq_true_2 by lia. simpl.
    by replace (base + (Y0 - Y0)) with base by lia.
  - rewrite (bool_decide_eq_false_2 (y = Y0)) by done.
    destruct (decide (Y0 + 1 <= y < Y0 + 1 + Z.of_nat r)).
    + rewrite !bool_decide_eq_true_2 by lia. simpl.
      by replace (base + 1 + (y - (Y0 + 1))) with (base + (y - Y0)) by lia.
    + rewrite !bool_decide_eq_false_2 by lia. done.
Qed.

Lemma draw_sprite_S config X0 r i Yc c :
  draw_sprite config X0 (S r) i Yc c =
  do sprite_data <- index RamOOB (ram c) (I c + i);
  do c1 <- draw_row config sprite_data Yc 8 X0 c;
  let Yn := cast_u8 (Yc + 1) in
  if Yn >=? window_height config then Ok c1
  else draw_sprite config X0 r (cast_u8 (i + 1)) Yn c1.
Proof. reflexivity. Qed.

Lemma draw_sprite_spec (X0 : Z) (rows : nat) :
  forall (i Yc : Z) (c : chip8_t),
    length (ram c) = RAM_SIZE ->
    length (display c) = DISPLAY_SIZE -> length (V c) = 16%nat ->
    0 <= X0 < 64 -> 0 <= Yc < 32 ->
    0 <= i -> i + Z.of_nat rows < 256 ->
    0 <= I c -> I c + i + Z.min (Z.of_nat rows) (32 - Yc) <= 4096 ->
    exists d v,
      draw_sprite default_config X0 rows i Yc c = Ok (with_dv c d v) /\
      length d = DISPLAY_SIZE /\
      (forall x y, 0 <= x < 64 -> 0 <= y < 32 ->
         pixel_at d x y =
         xorb (pixel_at (display c) x y)
              (sprite_mask (ram c) (I c + i) (Z.of_nat rows) X0 Yc x y)) /\
      (sprite_hit (display c) (ram c) (I c + i) (Z.of_nat rows) X0 Yc /\
         v = <[15%nat := 1]> (V c) \/
       ~ sprite_hit (display c) (ram c) (I c + i) (Z.of_nat rows) X0 Yc /\
         v = V c).
Proof.
  induction rows as [|r IH]; intros i Yc c Hram Hd Hv HX HY Hi Hir HI Hread.
  - exists (display c), (V c). simpl. rewrite with_dv_id.
    split; [done|]. split; [done|]. split.
    + intros x y _ _. by rewrite sprite_mask_0, xorb_false_r.
    + right. split; [|done]. intros (x & y & _ & _ & Hm & _).
      by rewrite sprite_mask_0 in Hm.
  - rewrite draw_sprite_S, default_height.
    rewrite index_ok by (rewrite Hram; unfold RAM_SIZE; lia).
    rewrite bind_Ok.
    set (data := ram c !!! Z.to_nat (I c + i)).
    destruct (draw_row_spec data Yc 8 X0 c) as (d1 & v1 & Hrow & Hd1 & Hpx1 & Hflag1);
      [done..|].
    rewrite Hrow, bind_Ok. cbv zeta.
    rewrite cast_u8_small by lia.
    change (Z.of_nat 8) with 8 in Hpx1, Hflag1.
    assert (row_hit (display c) data 8 X0 Yc ->
            sprite_hit (display c) (ram c) (I c + i) (Z.of_nat (S r)) X0 Yc)
      as Hfirst.
    { intros (x & Hx & Hm & Hp). exists x, Yc.
      rewrite sprite_mask_S, bool_decide_eq_true_2 by done. done. }
    destruct (Z.geb_spec (Yc + 1) 32) as [Hedge|Hin].
    + (* bottom edge reached: the sprite stops here *)
      exists d1, v1. split; [done|]. split; [done|]. split.
      * intros x y Hx Hy. rewrite Hpx1, sprite_mask_S by done.
        case_bool_decide as Hy0; [done|].
        unfold sprite_mask. rewrite bool_decide_eq_false_2 by lia. done.
      * destruct Hflag1 as [[Hhit ->]|[Hno ->]].
        -- left. split; [by apply Hfirst|done].
        -- right. split; [|done]. intros (x & y & Hx & Hy & Hm & Hp).
           rewrite sprite_mask_S in Hm. case_bool_decide as Hy0.
           ++ subst y. apply Hno. by exists x.
           ++ unfold sprite_mask in Hm.
              rewrite bool_decide_eq_false_2 in Hm by lia. done.
    + (* the remaining rows, from row Yc + 1 *)
      rewrite cast_u8_small by lia.
      destruct (IH (i + 1) (Yc + 1) (with_dv c d1 v1))
        as (d & v & Hrun & Hlen & Hpx & Hflag); simpl; try done; try lia.
      { destruct Hflag1 as [[_ ->]|[_ ->]]; [by rewrite length_insert|done]. }
      rewrite with_dv_with_dv in Hrun. simpl in Hpx, Hflag.
      replace (I c + (i + 1)) with (I c + i + 1) in Hpx, Hflag by lia.
      assert (forall x y, 0 <= x < 64 -> 0 <= y < 32 -> y <> Yc ->
                pixel_at d1 x y = pixel_at (display c) x y) as Hrest.
      { intros x y Hx Hy Hne. rewrite Hpx1 by done.
        rewrite bool_decide_eq_false_2 by done. by rewrite xorb_false_r. }
      assert (forall x y,
                sprite_mask (ram c) (I c + i + 1) (Z.of_nat r) X0 (Yc + 1) x y = true ->
                y <> Yc) as Hbelow.
      { intros x y Hm ->. unfold sprite_mask in Hm.
        rewrite bool_decide_eq_false_2 in Hm by lia. done. }
      exists d, v. split; [done|]. split; [done|]. split.
      * intros x y Hx Hy. rewrite Hpx, Hpx1, sprite_mask_S by done.
        case_bool_decide as Hy0.
        -- subst y. unfold sprite_mask.
           rewrite bool_decide_eq_false_2 by lia. simpl.
           by rewrite xorb_false_r.
        -- simpl. by rewrite xorb_false_r.
      * destruct Hflag as [[(x & y & Hx & Hy & Hm & Hp) ->]|[Hno ->]].
        -- left. split.
           ++ exists x, y. pose proof (Hbelow x y Hm) as Hne.
              rewrite sprite_mask_S, bool_decide_eq_false_2 by done.
              rewrite <- Hrest by done. done.
           ++ destruct Hflag1 as [[_ ->]|[_ ->]]; [|done].
              by rewrite list_insert_insert_eq.
        -- destruct Hflag1 as [[Hhit ->]|[Hno1 ->]].
           ++ left. split; [by apply Hfirst|done].
           ++ right. split; [|done]. intros (x & y & Hx & Hy & Hm & Hp).
              rewrite sprite_mask_S in Hm. case_bool_decide as Hy0.
              ** subst y. apply Hno1. by exists x.
              ** apply Hno. exists x, y. rewrite Hrest by done. done.
Qed.

(** ** One cycle: the fetch, then the cases of [execute] *)

Lemma emulate_fetch (c : chip8_t) (cfg : config_t) :
  length (ram c) = RAM_SIZE -> 0 <= PC c <= 4094 ->
  emulate_instruction c cfg =
  execute (set_inst (set_PC c (PC c + 2)) (decode (opcode_at c))) cfg.
Proof.
  intros Hram Hpc. unfold emulate_instruction.
  rewrite !index_ok by (rewrite Hram; unfold RAM_SIZE; lia).
  rewrite !bind_Ok. cbv zeta. by rewrite cast_u16_small by lia.
Qed.

Lemma emulate_fetch_inv (c c' : chip8_t) (cfg : config_t) :
  length (ram c) = RAM_SIZE ->
  emulate_instruction c cfg = Ok c' -> 0 <= PC c <= 4094.
Proof.
  intros Hram. unfold emulate_instruction.
  destruct (index RamOOB (ram c) (PC c)) as [hi|] eqn:Ehi; [|done].
  destruct (index RamOOB (ram c) (PC c + 1)) as [lo|] eqn:Elo; [|done].
  intros _. apply index_inv in Ehi as [? _], Elo as [? _].
  rewrite Hram in *. unfold RAM_SIZE in *. lia.
Qed.

Lemma top_nibble_range (op : Z) : 0 <= top_nibble op < 16.
Proof. apply (land_ones_bounds (Z.shiftr op 12) 4). lia. Qed.

Lemma execute_0 (c : chip8_t) (cfg : config_t) :
  top_nibble (opcode (inst c)) = 0 ->
  execute c cfg =
  if NN (inst c) =? 0xE0 then Ok (set_display c (replicate DISPLAY_SIZE false))
  else if NN (inst c) =? 0xEE then
    match stack_ptr c with
    | None => Fault NullStackPtr
    | Some sp =>
        do ret <- index StackOOB (stack c) (sp - 1);
        Ok (set_PC (set_stack_ptr c (Some (sp - 1))) ret)
    end
  else Ok c.
Proof. intros H. exec_case H. Qed.

Lemma execute_1 (c : chip8_t) (cfg : config_t) :
  top_nibble (opcode (inst c)) = 1 ->
  execute c cfg = Ok (set_PC c (NNN (inst c))).
Proof. intros H. exec_case H. Qed.

Lemma execute_2 (c : chip8_t) (cfg : config_t) :
  top_nibble (opcode (inst c)) = 2 ->
  execute c cfg =
  match stack_ptr c with
  | None => Fault NullStackPtr
  | Some sp =>
      do stk <- store StackOOB (stack c) sp (PC c);
      Ok (set_PC (set_stack_ptr (set_stack c stk) (Some (sp + 1))) (NNN (inst c)))
  end.
Proof. intros H. exec_case H. Qed.

Lemma execute_6 (c : chip8_t) (cfg : config_t) :
  top_nibble (opcode (inst c)) = 6 ->
  execute c cfg =
  do v <- store RegOOB (V c) (X (inst c)) (NN (inst c)); Ok (set_V c v).
Proof. intros H. exec_case H. Qed.

Lemma execute_7 (c : chip8_t) (cfg : config_t) :
  top_nibble (opcode (inst c)) = 7 ->
  execute c cfg =
  do vx <- index RegOOB (V c) (X (inst c));
  do v <- store RegOOB (V c) (X (inst c)) (cast_u8 (vx + NN (inst c)));
  Ok (set_V c v).
Proof. intros H. exec_case H. Qed.

Lemma execute_A (c : chip8_t) (cfg : config_t) :
  top_nibble (opcode (inst c)) = 10 ->
  execute c cfg = Ok (set_I c (NNN (inst c))).
Proof. intros H. exec_case H. Qed.

Lemma execute_D (c : chip8_t) (cfg : config_t) :
  top_nibble (opcode (inst c)) = 13 ->
  execute c cfg =
  do vx <- index RegOOB (V c) (X (inst c));
  do xm <- umod vx (window_width cfg);
  do vy <- index RegOOB (V c) (Y (inst c));
  do ym <- umod vy (window_height cfg);
  do v <- store RegOOB (V c) 0xF 0;
  draw_sprite cfg (cast_u8 xm) (Z.to_nat (N (inst c))) 0 (cast_u8 ym) (set_V c v).
Proof. intros H. exec_case H. Qed.

Lemma execute_other (c : chip8_t) (cfg : config_t) :
  let t := top_nibble (opcode (inst c)) in
  t <> 0 -> t <> 1 -> t <> 2 -> t <> 6 -> t <> 7 -> t <> 10 -> t <> 13 ->
  execute c cfg = Ok c.
Proof.
  intros t H0 H1 H2 H6 H7 HA HD.
  pose proof (top_nibble_range (opcode (inst c))) as Hr. fold t in Hr.
  assert (t = 3 \/ t = 4 \/ t = 5 \/ t = 8 \/ t = 9 \/ t = 11 \/ t = 12 \/
          t = 14 \/ t = 15) as Ht by lia.
  unfold t in Ht.
  destruct Ht as [H|[H|[H|[H|[H|[H|[H|[H|H]]]]]]]]; exec_case H.
Qed.

(** ** Decoding, immediate add, unimplemented opcodes *)

Lemma decode_bytes_fields (hi lo : Z) :
  0 <= hi < 256 -> 0 <= lo < 256 ->
  let op := Z.lor (Z.shiftl hi 8) lo in
  fetch_opcode hi lo = op /\
  0 <= op < 65536 /\
  decode (fetch_opcode hi lo) =
    {| opcode := op;
       NNN := Z.land op 0x0FFF;
       NN := Z.land op 0x00FF;
       N := Z.land op 0x000F;
       X := Z.land (Z.shiftr op 8) 0xF;
       Y := Z.land (Z.shiftr op 4) 0xF |}.
Proof.
  intros Hhi Hlo op.
  destruct (fetch_opcode_bytes hi lo Hhi Hlo) as [Hop Hval].
  fold op in Hop. split; [done|]. split; [rewrite <- Hop, Hval; lia|].
  rewrite Hop. apply decode_fields.
Qed.

(** C5. Executing 7XNN sets register X to (register X + NN) mod 256 and
    leaves every other register as it was; in particular register 15 is
    unchanged unless X = 15. *)
Theorem add_immediate_wraps (c : chip8_t) (cfg : config_t) :
  wf c -> 0 <= PC c <= 4094 ->
  top_nibble (opcode_at c) = 7 ->
  let i := decode (opcode_at c) in
  exists c',
    emulate_instruction c cfg = Ok c' /\
    reg c' (X i) = (reg c (X i) + NN i) mod 256 /\
    (forall k, 0 <= k < 16 -> k <> X i -> reg c' k = reg c k) /\
    (X i <> 15 -> reg c' 15 = reg c 15).
Proof.
  intros [Hram _ _ Hv] Hpc Htop i.
  pose proof (decode_ranges (opcode_at c)) as (_ & _ & _ & HX & _).
  fold i in HX.
  rewrite emulate_fetch, execute_7 by done.
  cbn [inst set_inst V set_PC]. fold i.
  rewrite index_ok, bind_Ok by (rewrite Hv; lia).
  rewrite store_ok, bind_Ok by (rewrite Hv; lia).
  eexists. split; [done|]. unfold reg. cbn [V set_V].
  assert (forall k, 0 <= k < 16 -> k <> X i ->
            <[Z.to_nat (X i) := cast_u8 (V c !!! Z.to_nat (X i) + NN i)]> (V c)
              !!! Z.to_nat k = V c !!! Z.to_nat k) as Hother.
  { intros k Hk Hne. apply list_lookup_total_insert_ne. lia. }
  split; [|split].
  - rewrite list_lookup_total_insert_eq by (rewrite Hv; lia). done.
  - done.
  - intros Hne. apply Hother; [lia|done].
Qed.

Lemma implemented_false_iff (op : Z) :
  implemented op = false <->
  top_nibble op <> 1 /\ top_nibble op <> 2 /\ top_nibble op <> 6 /\
  top_nibble op <> 7 /\ top_nibble op <> 0xA /\ top_nibble op <> 0xD /\
  (top_nibble op = 0 -> Z.land op 0xFF <> 0xE0 /\ Z.land op 0xFF <> 0xEE).
Proof.
  unfold implemented. cbv zeta.
  rewrite !orb_false_iff, andb_false_iff, orb_false_iff, !Z.eqb_neq. lia.
Qed.

(** C6. A cycle on an opcode outside the implemented set advances the
    program counter by exactly 2 and leaves registers, index register,
    memory, call stack and display unchanged. *)
Theorem unimplemented_is_noop (c : chip8_t) (cfg : config_t) :
  wf c -> 0 <= PC c <= 4094 ->
  implemented (opcode_at c) = false ->
  exists c',
    emulate_instruction c cfg = Ok c' /\
    PC c' = PC c + 2 /\
    V c' = V c /\ I c' = I c /\ ram c' = ram c /\
    stack c' = stack c /\ stack_ptr c' = stack_ptr c /\
    display c' = display c /\
    state c' = state c /\ delay_timer c' = delay_timer c /\
    sound_timer c' = sound_timer c /\ keypad c' = keypad c.
Proof.
  intros [Hram _ _ _] Hpc Himp.
  exists (set_inst (set_PC c (PC c + 2)) (decode (opcode_at c))).
  split; [|by repeat split].
  rewrite emulate_fetch by done.
  set (c1 := set_inst _ _).
  assert (opcode (inst c1) = opcode_at c) as Hop by done.
  assert (NN (inst c1) = Z.land (opcode_at c) 0xFF) as Hnn.
  { unfold c1. cbn [inst set_inst]. by rewrite decode_fields. }
  unfold implemented in Himp. cbv zeta in Himp.
  destruct (Z.eqb_spec (top_nibble (opcode_at c)) 0) as [H0|H0].
  - rewrite execute_0 by (by rewrite Hop).
    rewrite Hnn. cbn [andb orb] in Himp.
    do 6 (apply orb_false_iff in Himp as [Himp _]).
    apply orb_false_iff in Himp as [-> ->]. done.
  - cbn [andb orb] in Himp.
    repeat (apply orb_false_iff in Himp as [Himp ?%Z.eqb_neq]).
    apply Z.eqb_neq in Himp.
    apply execute_other; rewrite Hop; done.
Qed.

Lemma add_immediate_wraps_witness :
  exists c',
    emulate_instruction add_demo default_config = Ok c' /\
    reg add_demo 3 = 250 /\ reg c' 3 = 4 /\ reg c' 15 = reg add_demo 15.
Proof.
  destruct (add_immediate_wraps add_demo default_config)
    as (c' & Hrun & HX & _ & HF); [by_eval..|].
  assert (X (decode (opcode_at add_demo)) = 3) as EX by by_eval.
  assert (NN (decode (opcode_at add_demo)) = 10) as ENN by by_eval.
  assert (reg add_demo 3 = 250) as E3 by by_eval.
  rewrite EX in HX, HF. rewrite ENN, E3 in HX.
  exists c'. split; [exact Hrun|]. split; [exact E3|].
  split; [exact HX|]. apply HF. discriminate.
Defined.

Lemma unimplemented_is_noop_witness :
  implemented (opcode_at noop_demo) = false /\
  exists c',
    emulate_instruction noop_demo default_config = Ok c' /\
    PC c' = 514 /\ V c' = V noop_demo /\ I c' = I noop_demo /\
    ram c' = ram noop_demo /\ stack c' = stack noop_demo /\
    stack_ptr c' = stack_ptr noop_demo /\ display c' = display noop_demo.
Proof.
  split; [by_eval|].
  destruct (unimplemented_is_noop noop_demo default_config)
    as (c' & Hrun & Hpc & Hv & Hi & Hram & Hstk & Hsp & Hd & _); [by_eval..|].
  exists c'. repeat split; assumption.
Defined.

(** ** The draw opcode as a cycle *)

Lemma emulate_draw (c : chip8_t) :
  wf c -> 0 <= PC c <= 4094 ->
  top_nibble (opcode_at c) = 13 ->
  let i := decode (opcode_at c) in
  emulate_instruction c default_config =
  draw_sprite default_config (reg c (X i) mod 64) (Z.to_nat (N i)) 0
    (reg c (Y i) mod 32)
    (with_dv (fetched c) (display c) (<[15%nat := 0]> (V c))).
Proof.
  intros [Hram _ _ Hv] Hpc Htop i.
  pose proof (decode_ranges (opcode_at c)) as (_ & _ & _ & HX & HY).
  fold i in HX, HY.
  rewrite emulate_fetch, execute_D by done.
  cbn [inst set_inst V set_PC]. fold i.
  rewrite !index_ok by (rewrite Hv; lia). rewrite bind_Ok.
  rewrite default_width, default_height. unfold umod.
  change (64 =? 0) with false. change (32 =? 0) with false.
  cbv iota. rewrite !bind_Ok.
  rewrite store_ok, bind_Ok by (rewrite Hv; lia).
  pose proof (Z.mod_pos_bound (reg c (X i)) 64 ltac:(lia)).
  pose proof (Z.mod_pos_bound (reg c (Y i)) 32 ltac:(lia)).
  unfold reg in *. rewrite !cast_u8_small by lia.
  reflexivity.
Qed.

Lemma sprite_hit_iff (d : list bool) (mem : list Z) (base rows X0 Y0 : Z) :
  0 <= X0 -> 0 <= Y0 ->
  sprite_hit d mem base rows X0 Y0 <->
  exists r b, 0 <= r < rows /\ 0 <= b < 8 /\ Y0 + r < 32 /\ X0 + b < 64 /\
    Z.testbit (mem !!! Z.to_nat (base + r)) (7 - b) = true /\
    pixel_at d (X0 + b) (Y0 + r) = true.
Proof.
  intros HX HY. unfold sprite_hit, sprite_mask, row_mask. split.
  - intros (x & y & Hx & Hy & Hm & Hp).
    apply andb_true_iff in Hm as [Hyr Hm].
    apply andb_true_iff in Hm as [Hxr Hbit].
    apply bool_decide_eq_true in Hyr, Hxr.
    exists (y - Y0), (x - X0).
    replace (X0 + (x - X0)) with x by lia.
    replace (Y0 + (y - Y0)) with y by lia.
    replace (7 - (x - X0)) with (8 - 1 - (x - X0)) by lia.
    repeat split; try lia; done.
  - intros (r & b & Hr & Hb & Hy & Hx & Hbit & Hp).
    exists (X0 + b), (Y0 + r).
    split; [lia|]. split; [lia|]. split; [|done].
    rewrite !bool_decide_eq_true_2 by lia. simpl.
    replace (Y0 + r - Y0) with r by lia.
    replace (8 - 1 - (X0 + b - X0)) with (7 - b) by lia. done.
Qed.

Lemma draw_cycle_spec (c : chip8_t) :
  wf c -> 0 <= PC c <= 4094 ->
  top_nibble (opcode_at c) = 13 ->
  let i := decode (opcode_at c) in
  let X0 := reg c (X i) mod 64 in
  let Y0 := reg c (Y i) mod 32 in
  0 <= I c -> I c + Z.min (N i) (32 - Y0) <= 4096 ->
  exists d v,
    emulate_instruction c default_config = Ok (with_dv (fetched c) d v) /\
    length d = DISPLAY_SIZE /\
    (forall x y, 0 <= x < 64 -> 0 <= y < 32 ->
       pixel_at d x y =
       xorb (pixel_at (display c) x y)
            (sprite_mask (ram c) (I c) (N i) X0 Y0 x y)) /\
    (sprite_hit (display c) (ram c) (I c) (N i) X0 Y0 /\
       v = <[15%nat := 1]> (V c) \/
     ~ sprite_hit (display c) (ram c) (I c) (N i) X0 Y0 /\
       v = <[15%nat := 0]> (V c)).
Proof.
  intros Hwf Hpc Htop i X0 Y0 HI Hread.
  pose proof Hwf as [Hram Hd _ Hv].
  pose proof (decode_ranges (opcode_at c)) as (_ & _ & HN & _ & _).
  fold i in HN.
  pose proof (Z.mod_pos_bound (reg c (X i)) 64 ltac:(lia)) as HX0.
  pose proof (Z.mod_pos_bound (reg c (Y i)) 32 ltac:(lia)) as HY0.
  fold X0 in HX0. fold Y0 in HY0.
  rewrite emulate_draw by done. fold i X0 Y0.
  destruct (draw_sprite_spec X0 (Z.to_nat (N i)) 0 Y0
              (with_dv (fetched c) (display c) (<[15%nat := 0]> (V c))))
    as (d & v & Hrun & Hlen & Hpx & Hflag);
    cbn [ram display V I with_dv fetched set_V set_display set_inst set_PC];
    rewrite ?Z2Nat.id by lia; try done; try lia.
  { by rewrite length_insert. }
  rewrite with_dv_with_dv in Hrun.
  cbn [ram display V I with_dv fetched set_V set_display set_inst set_PC]
    in Hpx, Hflag.
  rewrite Z2Nat.id, Z.add_0_r in Hpx, Hflag by lia.
  exists d, v. split; [done|]. split; [done|]. split; [done|].
  destruct Hflag as [[Hhit ->]|[Hno ->]]; [left|right]; split; try done.
  by rewrite list_insert_insert_eq.
Qed.

(** C1. A draw cycle DXYN leaves register 15 at 1 exactly when some set
    sprite bit (row [r], bit offset [b] from the most significant bit) lands
    on a cell of the screen that was on, and at 0 otherwise, whatever the
    register held before: the flag is cleared before the sprite is drawn. *)
Theorem draw_collision_flag (c : chip8_t) :
  wf c -> 0 <= PC c <= 4094 ->
  top_nibble (opcode_at c) = 13 ->
  let i := decode (opcode_at c) in
  let X0 := reg c (X i) mod 64 in
  let Y0 := reg c (Y i) mod 32 in
  let collision :=
    exists r b, 0 <= r < N i /\ 0 <= b < 8 /\ Y0 + r < 32 /\ X0 + b < 64 /\
      Z.testbit (ram c !!! Z.to_nat (I c + r)) (7 - b) = true /\
      pixel_at (display c) (X0 + b) (Y0 + r) = true in
  0 <= I c -> I c + Z.min (N i) (32 - Y0) <= 4096 ->
  exists c',
    emulate_instruction c default_config = Ok c' /\
    (reg c' 15 = 1 <-> collision) /\
    (reg c' 15 = 0 <-> ~ collision).
Proof.
  intros Hwf Hpc Htop i X0 Y0 collision HI Hread.
  destruct (draw_cycle_spec c Hwf Hpc Htop HI Hread)
    as (d & v & Hrun & _ & _ & Hflag).
  fold i X0 Y0 in Hflag.
  pose proof (Z.mod_pos_bound (reg c (X i)) 64 ltac:(lia)) as HX0.
  pose proof (Z.mod_pos_bound (reg c (Y i)) 32 ltac:(lia)) as HY0.
  rewrite sprite_hit_iff in Hflag by (fold X0 Y0; lia).
  fold X0 Y0 collision in Hflag.
  destruct Hwf as [_ _ _ Hv].
  exists (with_dv (fetched c) d v). split; [done|].
  unfold reg. cbn [V with_dv set_V]. change (Z.to_nat 15) with 15%nat.
  destruct Hflag as [[Hhit ->]|[Hno ->]];
    rewrite list_lookup_total_insert_eq by (rewrite Hv; lia).
  - split; split; done.
  - split; split; done.
Qed.

Lemma draw_collision_flag_witness :
  (pixel_at (display collide_demo) 0 0 = true /\
   exists c', emulate_instruction collide_demo default_config = Ok c' /\
              reg c' 15 = 1) /\
  (pixel_at (display blank_demo) 0 0 = false /\
   exists c', emulate_instruction blank_demo default_config = Ok c' /\
              reg c' 15 = 0).
Proof.
  split; (split; [by_eval|]).
  - destruct (draw_collision_flag collide_demo) as (c' & Hrun & [_ H1] & _);
      [by_eval..|].
    exists c'. split; [exact Hrun|]. apply H1.
    exists 0, 0.
    split; [by_eval|]. split; [by_eval|]. split; [by_eval|].
    split; [by_eval|]. split; by_eval.
  - destruct (draw_collision_flag blank_demo) as (c' & Hrun & _ & [_ H0]);
      [by_eval..|].
    exists c'. split; [exact Hrun|]. apply H0.
    intros (r & b & Hr & Hb & _ & _ & Hbit & Hpx).
    assert (N (decode (opcode_at blank_demo)) = 1) as EN by by_eval.
    rewrite EN in Hr.
    assert (r = 0) as -> by lia.
    assert (b = 0 \/ b = 1 \/ b = 2 \/ b = 3 \/ b = 4 \/ b = 5 \/ b = 6 \/ b = 7)
      as Hcases by lia.
    destruct Hcases as [->|[->|[->|[->|[->|[->|[->| ->]]]]]]];
      first [ vm_compute in Hpx; discriminate Hpx
            | vm_compute in Hbit; discriminate Hbit ].
Defined.

Lemma sprite_mask_unfold (mem : list Z) (base rows X0 Y0 x y : Z) :
  sprite_mask mem base rows X0 Y0 x y =
  bool_decide (X0 <= x < X0 + 8 /\ Y0 <= y < Y0 + rows) &&
  Z.testbit (mem !!! Z.to_nat (base + (y - Y0))) (7 - (x - X0)).
Proof.
  unfold sprite_mask, row_mask.
  replace (8 - 1 - (x - X0)) with (7 - (x - X0)) by lia.
  destruct (decide (Y0 <= y < Y0 + rows)), (decide (X0 <= x < X0 + 8)).
  - by rewrite !bool_decide_eq_true_2 by lia.
  - rewrite (bool_decide_eq_true_2 (Y0 <= y < Y0 + rows)) by lia.
    by rewrite !bool_decide_eq_false_2 by lia.
  - by rewrite !(bool_decide_eq_false_2 (_ /\ Y0 <= y < _)),
       (bool_decide_eq_false_2 (Y0 <= y < _)) by lia.
  - by rewrite !bool_decide_eq_false_2 by lia.
Qed.

(** C2. A draw cycle DXYN clips the sprite at the right and bottom edges: a
    cell (x, y) of the 64x32 screen is XORed with the sprite bit of row
    [y - Y0] and bit offset [x - X0] (most significant bit leftmost) when it
    lies in the rectangle of 8 columns from X0 and N rows from Y0, and every
    other cell keeps its value; columns left of X0 and rows above Y0, where
    a wrapped sprite would land, are never touched. *)
Theorem draw_clips (c : chip8_t) :
  wf c -> 0 <= PC c <= 4094 ->
  top_nibble (opcode_at c) = 13 ->
  let i := decode (opcode_at c) in
  let X0 := reg c (X i) mod 64 in
  let Y0 := reg c (Y i) mod 32 in
  0 <= I c -> I c + Z.min (N i) (32 - Y0) <= 4096 ->
  exists c',
    emulate_instruction c default_config = Ok c' /\
    length (display c') = DISPLAY_SIZE /\
    (forall x y, 0 <= x < 64 -> 0 <= y < 32 ->
       pixel_at (display c') x y =
       if bool_decide (X0 <= x < X0 + 8 /\ Y0 <= y < Y0 + N i)
       then xorb (pixel_at (display c) x y)
                 (Z.testbit (ram c !!! Z.to_nat (I c + (y - Y0))) (7 - (x - X0)))
       else pixel_at (display c) x y) /\
    (forall x y, 0 <= x < 64 -> 0 <= y < 32 ->
       pixel_at (display c') x y <> pixel_at (display c) x y ->
       X0 <= x /\ Y0 <= y).
Proof.
  intros Hwf Hpc Htop i X0 Y0 HI Hread.
  destruct (draw_cycle_spec c Hwf Hpc Htop HI Hread)
    as (d & v & Hrun & Hlen & Hpx & _).
  fold i X0 Y0 in Hpx.
  exists (with_dv (fetched c) d v). split; [done|].
  cbn [display with_dv set_V set_display]. split; [done|].
  assert (forall x y, 0 <= x < 64 -> 0 <= y < 32 ->
            pixel_at d x y =
            if bool_decide (X0 <= x < X0 + 8 /\ Y0 <= y < Y0 + N i)
            then xorb (pixel_at (display c) x y)
                   (Z.testbit (ram c !!! Z.to_nat (I c + (y - Y0))) (7 - (x - X0)))
            else pixel_at (display c) x y) as Hcells.
  { intros x y Hx Hy. rewrite Hpx, sprite_mask_unfold by done.
    case_bool_decide; [done|]. by rewrite xorb_false_r. }
  split; [done|].
  intros x y Hx Hy Hne. rewrite Hcells in Hne by done.
  case_bool_decide; [lia|done].
Qed.

Lemma draw_clips_witness :
  reg clip_demo 0 = 60 /\
  exists c',
    emulate_instruction clip_demo default_config = Ok c' /\
    (forall x, 60 <= x < 64 ->
       pixel_at (display c') x 0 = negb (pixel_at (display clip_demo) x 0)) /\
    (forall x y, 0 <= x < 64 -> 0 <= y < 32 -> ~ (60 <= x /\ y = 0) ->
       pixel_at (display c') x y = pixel_at (display clip_demo) x y).
Proof.
  split; [by_eval|].
  destruct (draw_clips clip_demo) as (c' & Hrun & _ & Hcells & _); [by_eval..|].
  assert (reg clip_demo (X (decode (opcode_at clip_demo))) mod 64 = 60) as EX
    by by_eval.
  assert (reg clip_demo (Y (decode (opcode_at clip_demo))) mod 32 = 0) as EY
    by by_eval.
  assert (N (decode (opcode_at clip_demo)) = 1) as EN by by_eval.
  rewrite EX, EY, EN in Hcells.
  exists c'. split; [exact Hrun|]. split.
  - intros x Hx. rewrite Hcells by lia.
    rewrite bool_decide_eq_true_2 by lia.
    assert (x = 60 \/ x = 61 \/ x = 62 \/ x = 63) as Hcases by lia.
    assert (forall a b, b = true -> xorb a b = negb a) as Hneg.
    { intros a b ->. apply xorb_true_r. }
    destruct Hcases as [->|[->|[->| ->]]]; apply Hneg; by_eval.
  - intros x y Hx Hy Hout. rewrite Hcells by lia.
    rewrite bool_decide_eq_false_2 by lia. reflexivity.
Defined.

(** ** Sprite reads beyond the memory image *)

(** C10. The sprite read of DXYN is neither bounds-checked nor reduced
    modulo 4096: with I = 4095, at least two rows to draw and a start row
    of at most 30, the second row is read at address 4096, outside [ram]. *)
Theorem draw_reads_past_ram (c : chip8_t) :
  wf c -> 0 <= PC c <= 4094 ->
  top_nibble (opcode_at c) = 13 ->
  let i := decode (opcode_at c) in
  I c = 4095 -> 2 <= N i -> reg c (Y i) mod 32 <= 30 ->
  emulate_instruction c default_config = Fault (RamOOB 4096).
Proof.
  intros Hwf Hpc Htop i HI HN HY.
  pose proof Hwf as [Hram Hd _ Hv].
  pose proof (Z.mod_pos_bound (reg c (X i)) 64 ltac:(lia)) as HX0.
  pose proof (Z.mod_pos_bound (reg c (Y i)) 32 ltac:(lia)) as HY0.
  rewrite emulate_draw by done. fold i.
  destruct (Z.to_nat (N i)) as [|[|rows]] eqn:Erows; [lia|lia|].
  rewrite draw_sprite_S. cbn [ram I with_dv fetched set_V set_display set_inst set_PC].
  rewrite HI, index_ok, bind_Ok by (rewrite Hram; unfold RAM_SIZE; lia).
  destruct (draw_row_spec (ram c !!! Z.to_nat (4095 + 0)) (reg c (Y i) mod 32) 8
              (reg c (X i) mod 64)
              (with_dv (fetched c) (display c) (<[15%nat := 0]> (V c))))
    as (d & v & Hrow & _);
    [done|cbn [V with_dv set_V]; by rewrite length_insert|done..|].
  rewrite Hrow, bind_Ok, default_height. cbv zeta.
  rewrite (cast_u8_small (_ + 1)) by lia.
  destruct (Z.geb_spec (reg c (Y i) mod 32 + 1) 32) as [?|_]; [lia|].
  rewrite draw_sprite_S. cbn [ram I with_dv fetched set_V set_display set_inst set_PC].
  rewrite HI. change (cast_u8 (0 + 1)) with 1.
  rewrite index_oob by (rewrite Hram; unfold RAM_SIZE; lia).
  reflexivity.
Qed.

Lemma draw_reads_past_ram_witness :
  run 1 (boot [0xAF; 0xFF; 0xD0; 0x02]) = Ok past_ram_demo /\
  I past_ram_demo = 4095 /\
  emulate_instruction past_ram_demo default_config = Fault (RamOOB 4096).
Proof.
  split; [by_eval|]. split; [by_eval|].
  apply draw_reads_past_ram; by_eval.
Defined.

(** ** Subroutine call and return *)

(** C3. From program counter p, with room left on the call stack, a cycle
    on 2NNN followed by a cycle on the 00EE found at NNN leaves the program
    counter at p + 2, the address following the call; the stack pointer is
    back where it was. *)
Theorem call_return_roundtrip (c : chip8_t) (cfg : config_t) (sp : Z) :
  wf c -> 0 <= PC c <= 4094 ->
  stack_ptr c = Some sp -> 0 <= sp < 12 ->
  top_nibble (opcode_at c) = 2 ->
  let target := NNN (decode (opcode_at c)) in
  target <= 4094 -> word_at (ram c) target = 0x00EE ->
  exists c1 c2,
    emulate_instruction c cfg = Ok c1 /\
    PC c1 = target /\
    emulate_instruction c1 cfg = Ok c2 /\
    PC c2 = PC c + 2 /\
    stack_ptr c2 = Some sp.
Proof.
  intros [Hram _ Hstk _] Hpc Hsp Hdepth Htop target Htarget Hret.
  pose proof (decode_ranges (opcode_at c)) as (HNNN & _). fold target in HNNN.
  rewrite emulate_fetch, execute_2 by done.
  cbn [stack_ptr stack PC inst set_inst set_PC]. rewrite Hsp.
  rewrite store_ok, bind_Ok by (rewrite Hstk; unfold STACK_SIZE; lia).
  fold target. eexists. eexists. split; [reflexivity|].
  split; [reflexivity|].
  set (c1 := set_PC _ target).
  assert (opcode_at c1 = 0x00EE) as Hop by exact Hret.
  rewrite emulate_fetch;
    [|exact Hram|change (0 <= target <= 4094); lia].
  rewrite Hop.
  rewrite execute_0 by reflexivity.
  cbn [NN inst set_inst decode].
  change (cast_u8 (Z.land 238 255) =? 224) with false.
  change (cast_u8 (Z.land 238 255) =? 238) with true.
  cbv iota.
  cbn [stack_ptr stack c1 set_PC set_inst set_stack_ptr set_stack].
  replace (sp + 1 - 1) with sp by lia.
  rewrite index_ok, bind_Ok
    by (rewrite length_insert, Hstk; unfold STACK_SIZE; lia).
  rewrite list_lookup_total_insert_eq by (rewrite Hstk; unfold STACK_SIZE; lia).
  split; [reflexivity|]. split; reflexivity.
Qed.

Lemma call_return_roundtrip_witness :
  PC call_demo = 0x200 /\
  exists c1 c2,
    emulate_instruction call_demo default_config = Ok c1 /\
    PC c1 = 0x204 /\
    emulate_instruction c1 default_config = Ok c2 /\
    PC c2 = 0x202.
Proof.
  split; [by_eval|].
  destruct (call_return_roundtrip call_demo default_config 0)
    as (c1 & c2 & H1 & Hpc1 & H2 & Hpc2 & _); [by_eval..|].
  exists c1, c2. split; [exact H1|]. split; [exact Hpc1|].
  split; [exact H2|]. exact Hpc2.
Defined.

(** C8. Neither the pop of 00EE nor the push of 2NNN checks the stack
    pointer: a return executed on an empty call stack reads the slot before
    [stack[0]], and a call executed with 12 return addresses on the stack
    writes the slot after [stack[11]]. *)
Theorem stack_accesses_unchecked (c : chip8_t) (cfg : config_t) :
  wf c -> 0 <= PC c <= 4094 ->
  (opcode_at c = 0x00EE -> stack_ptr c = Some 0 ->
   emulate_instruction c cfg = Fault (StackOOB (-1))) /\
  (top_nibble (opcode_at c) = 2 -> stack_ptr c = Some 12 ->
   emulate_instruction c cfg = Fault (StackOOB 12)).
Proof.
  intros [Hram _ Hstk _] Hpc. split.
  - intros Hop Hsp. rewrite emulate_fetch, Hop by done.
    rewrite execute_0 by reflexivity.
    cbn [NN inst set_inst decode].
    change (cast_u8 (Z.land 238 255) =? 224) with false.
    change (cast_u8 (Z.land 238 255) =? 238) with true.
    cbv iota. cbn [stack_ptr stack set_PC set_inst]. rewrite Hsp.
    rewrite index_oob by lia. reflexivity.
  - intros Htop Hsp. rewrite emulate_fetch, execute_2 by done.
    cbn [stack_ptr stack PC inst set_inst set_PC]. rewrite Hsp.
    rewrite store_oob by (rewrite Hstk; unfold STACK_SIZE; lia).
    reflexivity.
Qed.

Lemma stack_accesses_unchecked_witness :
  emulate_instruction underflow_demo default_config = Fault (StackOOB (-1)) /\
  run 12 (boot [0x22; 0x00]) = Ok overflow_demo /\
  emulate_instruction overflow_demo default_config = Fault (StackOOB 12).
Proof.
  split; [|split].
  - apply (stack_accesses_unchecked underflow_demo default_config); by_eval.
  - by_eval.
  - apply (stack_accesses_unchecked overflow_demo default_config); by_eval.
Defined.

(** ** What a cycle preserves, whether or not its accesses are in range *)

Lemma bind_inv {A B : Type} (m : result A) (k : A -> result B) (b : B) :
  bind m k = Ok b -> exists a, m = Ok a /\ k a = Ok b.
Proof. destruct m as [a|f]; [by exists a|done]. Qed.

Lemma store_inv {A : Type} (oob : Z -> fault) (arr arr' : list A) (i : Z) (a : A) :
  store oob arr i a = Ok arr' ->
  arr' = <[Z.to_nat i := a]> arr /\ length arr' = length arr.
Proof.
  unfold store. case_bool_decide; [|done]. intros [= <-].
  by rewrite length_insert.
Qed.

Lemma draw_row_frame (cfg : config_t) (data Yc : Z) (n : nat) :
  forall (Xc : Z) (c c' : chip8_t),
    draw_row cfg data Yc n Xc c = Ok c' ->
    exists d v, c' = with_dv c d v /\
      length d = length (display c) /\ length v = length (V c).
Proof.
  induction n as [|j IH]; intros Xc c c' Hrun.
  - injection Hrun as <-. exists (display c), (V c). by rewrite with_dv_id.
  - rewrite draw_row_S in Hrun. cbv zeta in Hrun.
    apply bind_inv in Hrun as (pixel & _ & Hrun).
    apply bind_inv in Hrun as (c1 & Hflag & Hrun).
    apply bind_inv in Hrun as (d1 & Hd1 & Hrun).
    apply store_inv in Hd1 as [_ Hd1].
    assert (exists v1, c1 = with_dv c (display c) v1 /\ length v1 = length (V c))
      as (v1 & -> & Hv1).
    { destruct (_ && _).
      - apply bind_inv in Hflag as (v1 & Hst & [= <-]).
        apply store_inv in Hst as [_ Hst]. by exists v1.
      - injection Hflag as <-. exists (V c). by rewrite with_dv_id. }
    rewrite set_display_with_dv in Hrun. cbn [display with_dv set_V set_display] in Hd1.
    destruct (_ >=? _).
    + injection Hrun as <-. by exists d1, v1.
    + apply IH in Hrun as (d & v & -> & Hd & Hv).
      exists d, v. rewrite with_dv_with_dv. split; [done|].
      cbn [display V with_dv set_V set_display] in Hd, Hv. split; congruence.
Qed.

Lemma draw_sprite_frame (cfg : config_t) (X0 : Z) (rows : nat) :
  forall (i Yc : Z) (c c' : chip8_t),
    draw_sprite cfg X0 rows i Yc c = Ok c' ->
    exists d v, c' = with_dv c d v /\
      length d = length (display c) /\ length v = length (V c).
Proof.
  induction rows as [|r IH]; intros i Yc c c' Hrun.
  - injection Hrun as <-. exists (display c), (V c). by rewrite with_dv_id.
  - rewrite draw_sprite_S in Hrun.
    apply bind_inv in Hrun as (data & _ & Hrun).
    apply bind_inv in Hrun as (c1 & Hrow & Hrun).
    apply draw_row_frame in Hrow as (d1 & v1 & -> & Hd1 & Hv1).
    cbv zeta in Hrun. destruct (_ >=? _).
    + injection Hrun as <-. by exists d1, v1.
    + apply IH in Hrun as (d & v & -> & Hd & Hv).
      exists d, v. rewrite with_dv_with_dv. split; [done|].
      cbn [display V with_dv set_V set_display] in Hd, Hv. split; congruence.
Qed.

(** ** The program counter along a run *)

Lemma length_memcpy {A : Type} (dst src : list A) (off : nat) :
  (off + length src <= length dst)%nat ->
  length (memcpy dst off src) = length dst.
Proof.
  intros Hfit. unfold memcpy.
  rewrite !length_app, length_take, length_drop. lia.
Qed.

Lemma wf_zero_chip8 : wf zero_chip8.
Proof. split; apply length_replicate. Qed.

Lemma init_chip8_true (c0 c : chip8_t) (name : string) (rom : list Z) :
  wf c0 ->
  init_chip8 c0 name (Some rom) = (true, c) ->
  wf c /\ PC c = 0x200 /\ stack c = stack c0 /\ stack_ptr c = Some 0.
Proof.
  intros [Hram Hd Hstk Hv]. unfold init_chip8. cbv zeta.
  destruct (Z.gtb_spec (Z.of_nat (length rom)) (Z.of_nat RAM_SIZE - 512))
    as [|Hfit]; [done|].
  destruct (_ =? 0); [done|]. intros [= <-].
  unfold RAM_SIZE in Hfit.
  cbn [ram display stack V PC stack_ptr
       set_ram set_state set_PC set_rom_name set_stack_ptr].
  split; [|done]. split; try done.
  cbn [ram display stack V PC stack_ptr
       set_ram set_state set_PC set_rom_name set_stack_ptr].
  assert (length (memcpy (ram c0) 0 font) = RAM_SIZE) as Hfont.
  { rewrite length_memcpy; [done|].
    rewrite Hram. unfold RAM_SIZE, font. cbn [length]. lia. }
  rewrite length_memcpy; [done|].
  rewrite Hfont. unfold RAM_SIZE.
  change (Z.to_nat 512) with 512%nat. lia.
Qed.

Lemma init_chip8_inv (name : string) (rom : list Z) (c : chip8_t) :
  init_chip8 zero_chip8 name (Some rom) = (true, c) -> pc_inv c.
Proof.
  intros Hinit.
  apply init_chip8_true in Hinit as (Hwf & Hpc & Hstk & _);
    [|apply wf_zero_chip8].
  split; [done|]. split; [lia|].
  rewrite Hstk. by apply Forall_replicate.
Qed.

Lemma execute_inv (c c' : chip8_t) (cfg : config_t) :
  pc_inv c -> 0 <= NNN (inst c) < 4096 ->
  execute c cfg = Ok c' -> pc_inv c'.
Proof.
  intros (Hwf & Hpc & Hstk) HNNN Hrun.
  pose proof Hwf as [Hram Hd Hs Hv].
  set (t := top_nibble (opcode (inst c))).
  destruct (decide (t = 0)) as [H0|H0];
    [|destruct (decide (t = 1)) as [H1|H1];
      [|destruct (decide (t = 2)) as [H2|H2];
        [|destruct (decide (t = 6)) as [H6|H6];
          [|destruct (decide (t = 7)) as [H7|H7];
            [|destruct (decide (t = 10)) as [HA|HA];
              [|destruct (decide (t = 13)) as [HD|HD]]]]]]].
  - rewrite execute_0 in Hrun by done.
    destruct (_ =? 224).
    { injection Hrun as <-. split; [|done].
      split; done. }
    destruct (_ =? 238); [|by injection Hrun as <-].
    destruct (stack_ptr c) as [sp|]; [|done].
    apply bind_inv in Hrun as (ret & Hret & [= <-]).
    apply index_inv in Hret as [_ Hret].
    split; [done|]. split; [|done].
    cbn [PC set_PC]. by apply (Forall_lookup_1 _ _ _ _ Hstk Hret).
  - rewrite execute_1 in Hrun by done. injection Hrun as <-.
    split; [done|]. split; [cbn [PC set_PC]; lia|done].
  - rewrite execute_2 in Hrun by done.
    destruct (stack_ptr c) as [sp|]; [|done].
    apply bind_inv in Hrun as (stk & Hst & [= <-]).
    apply store_inv in Hst as [-> Hlen].
    split; [|split].
    + split; try done. cbn [stack set_PC set_stack_ptr set_stack]. congruence.
    + cbn [PC set_PC]. lia.
    + cbn [stack set_PC set_stack_ptr set_stack]. by apply Forall_insert.
  - rewrite execute_6 in Hrun by done.
    apply bind_inv in Hrun as (v & Hst & [= <-]).
    apply store_inv in Hst as [_ Hlen].
    split; [|done]. split; try done. cbn [V set_V]. congruence.
  - rewrite execute_7 in Hrun by done.
    apply bind_inv in Hrun as (vx & _ & Hrun).
    apply bind_inv in Hrun as (v & Hst & [= <-]).
    apply store_inv in Hst as [_ Hlen].
    split; [|done]. split; try done. cbn [V set_V]. congruence.
  - rewrite execute_A in Hrun by done. by injection Hrun as <-.
  - rewrite execute_D in Hrun by done.
    apply bind_inv in Hrun as (vx & _ & Hrun).
    apply bind_inv in Hrun as (xm & _ & Hrun).
    apply bind_inv in Hrun as (vy & _ & Hrun).
    apply bind_inv in Hrun as (ym & _ & Hrun).
    apply bind_inv in Hrun as (v0 & Hst & Hrun).
    apply store_inv in Hst as [_ Hlen].
    apply draw_sprite_frame in Hrun as (d & v & -> & Hdl & Hvl).
    cbn [display V set_V] in Hdl, Hvl.
    split; [|done]. split; try done.
    + cbn [display with_dv set_V set_display]. congruence.
    + cbn [V with_dv set_V set_display]. congruence.
  - rewrite execute_other in Hrun by done. by injection Hrun as <-.
Qed.

Lemma emulate_inv (c c' : chip8_t) (cfg : config_t) :
  pc_inv c -> emulate_instruction c cfg = Ok c' -> pc_inv c'.
Proof.
  intros (Hwf & Hpc & Hstk) Hrun.
  pose proof Hwf as [Hram Hd Hs Hv].
  pose proof (emulate_fetch_inv c c' cfg Hram Hrun) as Hfetch.
  rewrite emulate_fetch in Hrun by done.
  apply execute_inv in Hrun; [done| |].
  - split; [done|]. split; [cbn [PC set_inst set_PC]; lia|done].
  - cbn [inst set_inst].
    pose proof (decode_ranges (opcode_at c)) as (HNNN & _). lia.
Qed.

(** C7, amended. In every machine reachable from construction by cycles
    (and run-state changes of the input handler) the program counter lies
    in [0, 4096], and a cycle that completes started from a program counter
    of at most 4094; the program counter need not be even. *)
Theorem reachable_pc_range (rom : list Z) (c : chip8_t) :
  reachable rom c ->
  0 <= PC c <= 4096 /\
  (forall c', emulate_instruction c default_config = Ok c' -> PC c <= 4094).
Proof.
  intros Hreach.
  assert (pc_inv c) as (Hwf & Hpc & _).
  { induction Hreach as [name c Hinit|c c' _ IH Hrun|c st _ IH].
    - by apply init_chip8_inv in Hinit.
    - by apply emulate_inv in Hrun.
    - destruct IH as ([Hram Hd Hs Hv] & Hpc & Hstk).
      split; [by split|]. split; [exact Hpc|exact Hstk]. }
  split; [done|]. intros c' Hrun.
  destruct Hwf as [Hram _ _ _].
  by apply emulate_fetch_inv in Hrun as [_ ?].
Qed.

Lemma odd_pc_reachable : reachable odd_jump_rom odd_pc_demo.
Proof.
  apply reach_cycle with (boot odd_jump_rom).
  - apply reach_init with "rom.ch8"%string. by_eval.
  - by_eval.
Qed.

Lemma reachable_pc_range_witness :
  reachable odd_jump_rom odd_pc_demo /\ 0 <= PC odd_pc_demo <= 4096.
Proof.
  split; [exact odd_pc_reachable|].
  apply (reachable_pc_range odd_jump_rom odd_pc_demo). exact odd_pc_reachable.
Defined.

(** C7 as stated fails: after the jump [1201] the program counter is odd. *)
Lemma pc_even_in_range_fails :
  ~ (forall rom c, reachable rom c ->
       Z.even (PC c) = true /\ 0 <= PC c <= 4094).
Proof.
  intros Hclaim.
  destruct (Hclaim odd_jump_rom odd_pc_demo odd_pc_reachable) as [Heven _].
  vm_compute in Heven. discriminate Heven.
Qed.

(** The ROM [1FFE]: a jump to 4094, where a no-op moves the program counter
    to 4096, one past the last address a fetch can read. *)
Example pc_reaches_4096 :
  reachable [0x1F; 0xFE] (state_of (run 2 (boot [0x1F; 0xFE]))) /\
  PC (state_of (run 2 (boot [0x1F; 0xFE]))) = 4096 /\
  run 3 (boot [0x1F; 0xFE]) = Fault (RamOOB 4096).
Proof.
  split; [|split; by_eval].
  apply reach_cycle with (state_of (run 1 (boot [0x1F; 0xFE]))); [|by_eval].
  apply reach_cycle with (boot [0x1F; 0xFE]); [|by_eval].
  apply reach_init with "rom.ch8"%string. by_eval.
Qed.

(** ** Construction on an oversized ROM *)

(** C9 as stated fails: the oversized ROM is rejected, but the font has
    been copied into memory before the size is looked at. *)
Lemma init_chip8_oversized_mutates :
  fst (init_chip8 zero_chip8 "big.ch8" (Some oversized_rom)) = false /\
  ram zero_chip8 !! 0%nat = Some 0 /\
  ram (snd (init_chip8 zero_chip8 "big.ch8" (Some oversized_rom))) !! 0%nat
    = Some 0xF0 /\
  snd (init_chip8 zero_chip8 "big.ch8" (Some oversized_rom)) <> zero_chip8.
Proof.
  split; [by_eval|]. split; [by_eval|]. split; [by_eval|].
  intros Heq. apply (f_equal (fun c => ram c !! 0%nat)) in Heq.
  vm_compute in Heq. discriminate Heq.
Qed.

(** C9, amended. For every ROM file longer than 3584 bytes, [init_chip8]
    returns false having written no byte of the ROM and without setting the
    run state, program counter, ROM name or stack pointer; of the machine,
    only the 80 bytes of memory that receive the font have been written. *)
Theorem init_chip8_oversized (c : chip8_t) (name : string) (rom : list Z) :
  3584 < Z.of_nat (length rom) ->
  wf c ->
  exists c',
    init_chip8 c name (Some rom) = (false, c') /\
    c' = set_ram c (ram c') /\
    length (ram c') = RAM_SIZE /\
    (forall a, (a < 80)%nat -> ram c' !! a = font !! a) /\
    (forall a, (80 <= a)%nat -> ram c' !! a = ram c !! a).
Proof.
  intros Hbig [Hram _ _ _].
  exists (set_ram c (memcpy (ram c) 0 font)). split; [|split; [|split; [|split]]].
  - unfold init_chip8. cbv zeta.
    destruct (Z.gtb_spec (Z.of_nat (length rom)) (Z.of_nat RAM_SIZE - 512))
      as [|Hfit]; [done|].
    unfold RAM_SIZE in Hfit. lia.
  - reflexivity.
  - cbn [ram set_ram]. rewrite length_memcpy; [done|].
    rewrite Hram. unfold RAM_SIZE, font. cbn [length]. lia.
  - intros a Ha. cbn [ram set_ram]. unfold memcpy.
    rewrite take_0, app_nil_l. apply lookup_app_l.
    unfold font. cbn [length]. lia.
  - intros a Ha. cbn [ram set_ram]. unfold memcpy.
    rewrite take_0, app_nil_l.
    assert (length font = 80%nat) as Hfont by reflexivity.
    rewrite lookup_app_r by lia. rewrite lookup_drop, Hfont.
    f_equal. lia.
Qed.

Lemma init_chip8_oversized_witness :
  3584 < Z.of_nat (length oversized_rom) /\
  exists c',
    init_chip8 zero_chip8 "big.ch8" (Some oversized_rom) = (false, c') /\
    c' = set_ram zero_chip8 (ram c') /\
    ram c' !! 0%nat = Some 0xF0 /\
    ram c' !! 0x200%nat = Some 0.
Proof.
  split; [by_eval|].
  destruct (init_chip8_oversized zero_chip8 "big.ch8" oversized_rom)
    as (c' & Hinit & Hframe & _ & Hfont & Hrest);
    [by_eval..|].
  exists c'. split; [exact Hinit|]. split; [exact Hframe|]. split.
  - rewrite Hfont by lia. reflexivity.
  - rewrite Hrest by lia. by_eval.
Defined.


(** ** The example machines are machines of actual runs *)

Example demo_machines_reached :
  run 1 (boot [0x63; 0xFA; 0x73; 0x0A]) = Ok add_demo /\
  run 1 (boot pixel_rom) = Ok blank_demo /\
  run 2 (boot pixel_rom) = Ok collide_demo /\
  run 2 (boot clip_rom) = Ok clip_demo /\
  run 1 (boot odd_jump_rom) = Ok odd_pc_demo.
Proof.
  split; [by_eval|]. split; [by_eval|]. split; [by_eval|].
  split; by_eval.
Qed.

(** Two end-to-end runs: [6005 7003] leaves V0 = 8 and PC = 516; clearing
    the screen and drawing the row 0xFF at (0, 0) turns on columns 0..7 of
    row 0 and nothing else, with V15 = 0. *)
Example run_load_add :
  PC (state_of (run 2 (boot [0x60; 0x05; 0x70; 0x03]))) = 516 /\
  reg (state_of (run 2 (boot [0x60; 0x05; 0x70; 0x03]))) 0 = 8.
Proof. split; by_eval. Qed.

Example run_clear_draw :
  display (state_of (run 3 (boot [0x00; 0xE0; 0xA2; 0x08; 0xD0; 0x11;
                                  0x00; 0x00; 0xFF])))
    = replicate 8 true ++ replicate (DISPLAY_SIZE - 8) false /\
  reg (state_of (run 3 (boot [0x00; 0xE0; 0xA2; 0x08; 0xD0; 0x11;
                              0x00; 0x00; 0xFF]))) 15 = 0.
Proof. split; by_eval. Qed.

(** * Part V: further properties of the program *)

(** ** The remaining opcodes *)

Lemma display_ext (d d' : list bool) :
  length d = DISPLAY_SIZE -> length d' = DISPLAY_SIZE ->
  (forall x y, 0 <= x < 64 -> 0 <= y < 32 -> pixel_at d x y = pixel_at d' x y) ->
  d = d'.
Proof.
  intros Hd Hd' Hpx. apply (list_eq_same_length _ _ DISPLAY_SIZE); [done..|].
  intros k a b Hk Ha Hb. unfold DISPLAY_SIZE in Hk.
  pose proof (Hpx (Z.of_nat k mod 64) (Z.of_nat k / 64)) as Hcell.
  unfold pixel_at in Hcell.
  replace (Z.of_nat k / 64 * 64 + Z.of_nat k mod 64) with (Z.of_nat k) in Hcell
    by (pose proof (Z.div_mod (Z.of_nat k) 64); lia).
  rewrite Nat2Z.id in Hcell.
  rewrite (list_lookup_total_correct _ _ _ Ha) in Hcell.
  rewrite (list_lookup_total_correct _ _ _ Hb) in Hcell.
  apply Hcell.
  - apply Z.mod_pos_bound. lia.
  - split; [apply Z.div_pos; lia|apply Z.div_lt_upper_bound; lia].
Qed.

(** X1. A cycle on any opcode 0x0_E0 (top nibble 0, low byte E0, whatever
    the third nibble) turns every cell of the display off, advances the
    program counter by 2 and changes nothing else. *)
Theorem clear_screen_opcode (c : chip8_t) (cfg : config_t) :
  wf c -> 0 <= PC c <= 4094 ->
  top_nibble (opcode_at c) = 0 -> Z.land (opcode_at c) 0xFF = 0xE0 ->
  exists c',
    emulate_instruction c cfg = Ok c' /\
    length (display c') = DISPLAY_SIZE /\
    (forall x y, 0 <= x < 64 -> 0 <= y < 32 -> pixel_at (display c') x y = false) /\
    PC c' = PC c + 2 /\
    V c' = V c /\ I c' = I c /\ ram c' = ram c /\
    stack c' = stack c /\ stack_ptr c' = stack_ptr c.
Proof.
  intros [Hram _ _ _] Hpc Htop Hlow.
  rewrite emulate_fetch, execute_0 by done.
  cbn [NN inst set_inst]. rewrite decode_fields. cbn [NN]. rewrite Hlow.
  change (224 =? 224) with true. cbv iota.
  eexists. split; [reflexivity|].
  cbn [display set_display PC V I ram stack stack_ptr set_inst set_PC].
  split; [apply length_replicate|]. split; [|done].
  intros x y Hx Hy. unfold pixel_at.
  apply list_lookup_total_correct, lookup_replicate_2.
  unfold DISPLAY_SIZE. lia.
Qed.

Lemma clear_screen_opcode_witness :
  pixel_at (display collide_demo) 0 0 = true /\
  exists c',
    emulate_instruction
      (set_ram collide_demo (<[516%nat := 0x03]> (<[517%nat := 0xE0]> (ram collide_demo))))
      default_config = Ok c' /\
    pixel_at (display c') 0 0 = false.
Proof.
  split; [by_eval|].
  destruct (clear_screen_opcode
              (set_ram collide_demo
                 (<[516%nat := 0x03]> (<[517%nat := 0xE0]> (ram collide_demo))))
              default_config)
    as (c' & Hrun & _ & Hoff & _); [by_eval..|].
  exists c'. split; [exact Hrun|]. apply Hoff; lia.
Defined.

(** X2. A cycle on 1NNN leaves the program counter at exactly NNN, the low
    12 bits of the opcode (no increment is applied after the jump), and
    changes nothing else. *)
Theorem jump_opcode (c : chip8_t) (cfg : config_t) :
  wf c -> 0 <= PC c <= 4094 ->
  top_nibble (opcode_at c) = 1 ->
  exists c',
    emulate_instruction c cfg = Ok c' /\
    PC c' = Z.land (opcode_at c) 0xFFF /\ 0 <= PC c' < 4096 /\
    V c' = V c /\ I c' = I c /\ ram c' = ram c /\ display c' = display c /\
    stack c' = stack c /\ stack_ptr c' = stack_ptr c.
Proof.
  intros [Hram _ _ _] Hpc Htop.
  pose proof (decode_ranges (opcode_at c)) as (HNNN & _).
  rewrite emulate_fetch, execute_1 by done.
  eexists. split; [reflexivity|].
  cbn [display set_display PC V I ram stack stack_ptr set_inst set_PC inst].
  rewrite decode_fields in *. cbn [NNN] in *. done.
Qed.

Lemma jump_opcode_witness :
  exists c',
    emulate_instruction (boot odd_jump_rom) default_config = Ok c' /\
    PC (boot odd_jump_rom) = 0x200 /\ PC c' = 0x201.
Proof.
  destruct (jump_opcode (boot odd_jump_rom) default_config)
    as (c' & Hrun & Hpc & _); [by_eval..|].
  assert (Z.land (opcode_at (boot odd_jump_rom)) 0xFFF = 0x201) as E by by_eval.
  rewrite E in Hpc.
  exists c'. split; [exact Hrun|]. split; [by_eval|exact Hpc].
Defined.

(** X3. A cycle on 6XNN sets register X to NN and leaves every other
    register, and everything but the program counter (advanced by 2),
    unchanged. *)
Theorem load_immediate_opcode (c : chip8_t) (cfg : config_t) :
  wf c -> 0 <= PC c <= 4094 ->
  top_nibble (opcode_at c) = 6 ->
  let i := decode (opcode_at c) in
  exists c',
    emulate_instruction c cfg = Ok c' /\
    reg c' (X i) = Z.land (opcode_at c) 0xFF /\
    (forall k, 0 <= k < 16 -> k <> X i -> reg c' k = reg c k) /\
    length (V c') = 16%nat /\
    PC c' = PC c + 2 /\ I c' = I c /\ ram c' = ram c /\
    display c' = display c /\ stack c' = stack c /\ stack_ptr c' = stack_ptr c.
Proof.
  intros [Hram _ _ Hv] Hpc Htop i.
  pose proof (decode_ranges (opcode_at c)) as (_ & _ & _ & HX & _).
  fold i in HX.
  rewrite emulate_fetch, execute_6 by done.
  cbn [inst set_inst V set_PC]. fold i.
  rewrite store_ok, bind_Ok by (rewrite Hv; lia).
  eexists. split; [reflexivity|]. unfold reg.
  cbn [display set_display PC V I ram stack stack_ptr set_inst set_PC set_V].
  split; [|split; [|split; [|done]]].
  - rewrite list_lookup_total_insert_eq by (rewrite Hv; lia).
    unfold i. by rewrite decode_fields.
  - intros k Hk Hne. apply list_lookup_total_insert_ne. lia.
  - by rewrite length_insert.
Qed.

Lemma load_immediate_opcode_witness :
  exists c',
    emulate_instruction (boot clip_rom) default_config = Ok c' /\
    reg c' 0 = 0x3C /\ reg c' 15 = reg (boot clip_rom) 15.
Proof.
  destruct (load_immediate_opcode (boot clip_rom) default_config)
    as (c' & Hrun & HX & Hother & _); [by_eval..|].
  assert (X (decode (opcode_at (boot clip_rom))) = 0) as EX by by_eval.
  assert (Z.land (opcode_at (boot clip_rom)) 0xFF = 0x3C) as ENN by by_eval.
  rewrite EX in HX, Hother. rewrite ENN in HX.
  exists c'. split; [exact Hrun|]. split; [exact HX|].
  apply Hother; lia.
Defined.

(** X4. A cycle on ANNN sets the index register to NNN, a 12-bit address,
    and leaves registers, memory, display and call stack unchanged. *)
Theorem load_index_opcode (c : chip8_t) (cfg : config_t) :
  wf c -> 0 <= PC c <= 4094 ->
  top_nibble (opcode_at c) = 10 ->
  exists c',
    emulate_instruction c cfg = Ok c' /\
    I c' = Z.land (opcode_at c) 0xFFF /\ 0 <= I c' < 4096 /\
    PC c' = PC c + 2 /\ V c' = V c /\ ram c' = ram c /\
    display c' = display c /\ stack c' = stack c /\ stack_ptr c' = stack_ptr c.
Proof.
  intros [Hram _ _ _] Hpc Htop.
  pose proof (decode_ranges (opcode_at c)) as (HNNN & _).
  rewrite emulate_fetch, execute_A by done.
  eexists. split; [reflexivity|].
  cbn [display set_display PC V I ram stack stack_ptr set_inst set_PC set_I inst].
  rewrite decode_fields in *. cbn [NNN] in *. done.
Qed.

Lemma load_index_opcode_witness :
  exists c',
    emulate_instruction (boot pixel_rom) default_config = Ok c' /\ I c' = 0x208.
Proof.
  destruct (load_index_opcode (boot pixel_rom) default_config)
    as (c' & Hrun & HI & _); [by_eval..|].
  assert (Z.land (opcode_at (boot pixel_rom)) 0xFFF = 0x208) as E by by_eval.
  rewrite E in HI. exists c'. split; [exact Hrun|exact HI].
Defined.

(** ** The call stack as a list *)

Lemma take_insert_snoc {A : Type} (l : list A) (n : nat) (a : A) :
  (n < length l)%nat -> take (S n) (<[n := a]> l) = take n l ++ [a].
Proof.
  intros Hn. rewrite (take_S_r _ _ a) by (by apply list_lookup_insert_eq).
  by rewrite take_insert_ge by lia.
Qed.

(** X5. A cycle on 2NNN with k < 12 return addresses on the call stack
    appends the address following the call to them and leaves the program
    counter at NNN; registers, index register, memory and display are
    unchanged. *)
Theorem call_pushes_return_address (c : chip8_t) (cfg : config_t) (sp : Z) :
  wf c -> 0 <= PC c <= 4094 ->
  stack_ptr c = Some sp -> 0 <= sp < 12 ->
  top_nibble (opcode_at c) = 2 ->
  exists c',
    emulate_instruction c cfg = Ok c' /\
    call_stack c' = call_stack c ++ [PC c + 2] /\
    stack_ptr c' = Some (sp + 1) /\
    length (stack c') = STACK_SIZE /\
    PC c' = Z.land (opcode_at c) 0xFFF /\
    V c' = V c /\ I c' = I c /\ ram c' = ram c /\ display c' = display c.
Proof.
  intros [Hram _ Hstk _] Hpc Hsp Hdepth Htop.
  rewrite emulate_fetch, execute_2 by done.
  cbn [stack_ptr stack PC inst set_inst set_PC]. rewrite Hsp.
  rewrite store_ok, bind_Ok by (rewrite Hstk; unfold STACK_SIZE; lia).
  eexists. split; [reflexivity|]. unfold call_stack. rewrite Hsp.
  cbn [display PC V I ram stack stack_ptr set_inst set_PC set_stack set_stack_ptr].
  split; [|split; [done|split; [by rewrite length_insert|]]].
  - replace (Z.to_nat (sp + 1)) with (S (Z.to_nat sp)) by lia.
    apply take_insert_snoc. rewrite Hstk. unfold STACK_SIZE. lia.
  - rewrite decode_fields. cbn [NNN]. done.
Qed.

Lemma call_pushes_return_address_witness :
  call_stack call_demo = [] /\
  exists c',
    emulate_instruction call_demo default_config = Ok c' /\
    call_stack c' = [0x202] /\ PC c' = 0x204.
Proof.
  split; [by_eval|].
  destruct (call_pushes_return_address call_demo default_config 0)
    as (c' & Hrun & Hstack & _ & _ & Hpc & _); [by_eval..|].
  assert (call_stack call_demo ++ [PC call_demo + 2] = [0x202]) as E1 by by_eval.
  assert (Z.land (opcode_at call_demo) 0xFFF = 0x204) as E2 by by_eval.
  rewrite E1 in Hstack. rewrite E2 in Hpc.
  exists c'. split; [exact Hrun|]. split; [exact Hstack|exact Hpc].
Defined.

(** X6. A cycle on 00EE with at least one return address on the call stack
    removes the newest one and continues at it: the addresses before the
    cycle are those after it followed by the new program counter.  The
    [stack] array itself is not written. *)
Theorem return_pops_newest_address (c : chip8_t) (cfg : config_t) (sp : Z) :
  wf c -> 0 <= PC c <= 4094 ->
  stack_ptr c = Some sp -> 1 <= sp <= 12 ->
  top_nibble (opcode_at c) = 0 -> Z.land (opcode_at c) 0xFF = 0xEE ->
  exists c',
    emulate_instruction c cfg = Ok c' /\
    call_stack c = call_stack c' ++ [PC c'] /\
    stack_ptr c' = Some (sp - 1) /\
    stack c' = stack c /\
    V c' = V c /\ I c' = I c /\ ram c' = ram c /\ display c' = display c.
Proof.
  intros [Hram _ Hstk _] Hpc Hsp Hdepth Htop Hlow.
  rewrite emulate_fetch, execute_0 by done.
  cbn [NN inst set_inst]. rewrite decode_fields. cbn [NN]. rewrite Hlow.
  change (238 =? 224) with false. change (238 =? 238) with true. cbv iota.
  cbn [stack_ptr stack set_PC set_inst]. rewrite Hsp.
  rewrite index_ok, bind_Ok by (rewrite Hstk; unfold STACK_SIZE; lia).
  eexists. split; [reflexivity|]. unfold call_stack. rewrite Hsp.
  cbn [display PC V I ram stack stack_ptr set_inst set_PC set_stack set_stack_ptr].
  split; [|done].
  replace (Z.to_nat sp) with (S (Z.to_nat (sp - 1))) at 1 by lia.
  apply take_S_r. apply list_lookup_lookup_total_lt.
  rewrite Hstk. unfold STACK_SIZE. lia.
Qed.

Lemma return_pops_newest_address_witness :
  call_stack (state_of (run 1 call_demo)) = [0x202] /\
  exists c',
    emulate_instruction (state_of (run 1 call_demo)) default_config = Ok c' /\
    call_stack c' = [] /\ PC c' = 0x202.
Proof.
  split; [by_eval|].
  destruct (return_pops_newest_address (state_of (run 1 call_demo)) default_config 1)
    as (c' & Hrun & Hstack & Hsp & Hstk & _); [by_eval..|].
  assert (call_stack (state_of (run 1 call_demo)) = [] ++ [0x202]) as E by by_eval.
  rewrite E in Hstack. apply app_inj_tail in Hstack as [Hs Hp].
  exists c'. split; [exact Hrun|]. split; [by symmetry|by symmetry].
Defined.

(** ** What no cycle writes *)

Lemma top_nibble_cases (op : Z) :
  let t := top_nibble op in
  t = 0 \/ t = 1 \/ t = 2 \/ t = 6 \/ t = 7 \/ t = 10 \/ t = 13 \/
  (t <> 0 /\ t <> 1 /\ t <> 2 /\ t <> 6 /\ t <> 7 /\ t <> 10 /\ t <> 13).
Proof. intros t. lia. Qed.

Lemma execute_frame (c c' : chip8_t) (cfg : config_t) :
  execute c cfg = Ok c' ->
  ram c' = ram c /\ state c' = state c /\
  delay_timer c' = delay_timer c /\ sound_timer c' = sound_timer c /\
  keypad c' = keypad c /\ rom_name c' = rom_name c /\ inst c' = inst c.
Proof.
  intros Hrun.
  destruct (top_nibble_cases (opcode (inst c)))
    as [H|[H|[H|[H|[H|[H|[H|(H0 & H1 & H2 & H6 & H7 & HA & HD)]]]]]]].
  - rewrite execute_0 in Hrun by done.
    destruct (_ =? 224); [by injection Hrun as <-|].
    destruct (_ =? 238); [|by injection Hrun as <-].
    destruct (stack_ptr c) as [sp|]; [|done].
    by apply bind_inv in Hrun as (ret & _ & [= <-]).
  - rewrite execute_1 in Hrun by done. by injection Hrun as <-.
  - rewrite execute_2 in Hrun by done.
    destruct (stack_ptr c) as [sp|]; [|done].
    by apply bind_inv in Hrun as (stk & _ & [= <-]).
  - rewrite execute_6 in Hrun by done.
    by apply bind_inv in Hrun as (v & _ & [= <-]).
  - rewrite execute_7 in Hrun by done.
    apply bind_inv in Hrun as (vx & _ & Hrun).
    by apply bind_inv in Hrun as (v & _ & [= <-]).
  - rewrite execute_A in Hrun by done. by injection Hrun as <-.
  - rewrite execute_D in Hrun by done.
    apply bind_inv in Hrun as (vx & _ & Hrun).
    apply bind_inv in Hrun as (xm & _ & Hrun).
    apply bind_inv in Hrun as (vy & _ & Hrun).
    apply bind_inv in Hrun as (ym & _ & Hrun).
    apply bind_inv in Hrun as (v0 & _ & Hrun).
    by apply draw_sprite_frame in Hrun as (d & v & -> & _).
  - rewrite execute_other in Hrun by done. by injection Hrun as <-.
Qed.

Lemma emulate_frame (c c' : chip8_t) (cfg : config_t) :
  emulate_instruction c cfg = Ok c' ->
  ram c' = ram c /\ state c' = state c /\
  delay_timer c' = delay_timer c /\ sound_timer c' = sound_timer c /\
  keypad c' = keypad c /\ rom_name c' = rom_name c /\
  exists hi lo,
    ram c !! Z.to_nat (PC c) = Some hi /\
    ram c !! Z.to_nat (PC c + 1) = Some lo /\
    inst c' = decode (fetch_opcode hi lo).
Proof.
  unfold emulate_instruction. intros Hrun.
  apply bind_inv in Hrun as (hi & Hhi & Hrun).
  apply bind_inv in Hrun as (lo & Hlo & Hrun).
  apply index_inv in Hhi as [_ Hhi], Hlo as [_ Hlo].
  apply execute_frame in Hrun as (? & ? & ? & ? & ? & ? & Hinst).
  do 6 (split; [done|]). by exists hi, lo.
Qed.

(** X7. No cycle that completes writes memory, the timers, the keypad, the
    run state or the ROM name, whatever the opcode; it leaves in [inst] the
    decoding of the two bytes it fetched at the old program counter. *)
Theorem cycle_never_writes_memory (c c' : chip8_t) (cfg : config_t) :
  emulate_instruction c cfg = Ok c' ->
  ram c' = ram c /\ state c' = state c /\
  delay_timer c' = delay_timer c /\ sound_timer c' = sound_timer c /\
  keypad c' = keypad c /\ rom_name c' = rom_name c /\
  exists hi lo,
    ram c !! Z.to_nat (PC c) = Some hi /\
    ram c !! Z.to_nat (PC c + 1) = Some lo /\
    inst c' = decode (fetch_opcode hi lo).
Proof. exact (emulate_frame c c' cfg). Qed.

Lemma cycle_never_writes_memory_witness :
  ram collide_demo = ram (boot pixel_rom) /\
  inst collide_demo = decode 0xD001.
Proof.
  assert (Hrun2 : emulate_instruction blank_demo default_config = Ok collide_demo)
    by by_eval.
  assert (Hrun1 : emulate_instruction (boot pixel_rom) default_config = Ok blank_demo)
    by by_eval.
  destruct (cycle_never_writes_memory _ _ _ Hrun2)
    as (Hram2 & _ & _ & _ & _ & _ & hi & lo & Hhi & Hlo & Hinst).
  destruct (cycle_never_writes_memory _ _ _ Hrun1) as (Hram1 & _).
  split; [by rewrite Hram2, Hram1|].
  rewrite Hinst.
  assert (ram blank_demo !! Z.to_nat (PC blank_demo) = Some 0xD0) as E1 by by_eval.
  assert (ram blank_demo !! Z.to_nat (PC blank_demo + 1) = Some 0x01) as E2 by by_eval.
  rewrite E1 in Hhi. rewrite E2 in Hlo.
  injection Hhi as <-. injection Hlo as <-. reflexivity.
Defined.

Lemma fetch_oob (c : chip8_t) (cfg : config_t) :
  wf c -> 4094 < PC c ->
  emulate_instruction c cfg = Fault (RamOOB (Z.max (PC c) 4096)).
Proof.
  intros [Hram _ _ _] Hpc. unfold emulate_instruction.
  destruct (decide (PC c = 4095)) as [E|Hne].
  - rewrite E. rewrite index_ok, bind_Ok by (rewrite Hram; unfold RAM_SIZE; lia).
    rewrite index_oob by (rewrite Hram; unfold RAM_SIZE; lia). reflexivity.
  - rewrite index_oob by (rewrite Hram; unfold RAM_SIZE; lia).
    cbn [bind]. f_equal. f_equal. lia.
Qed.

(** X8. A fetch at a program counter above 4094 reads outside the memory
    image: at 4095 the low byte is read at address 4096, and from 4096 on
    the high byte itself is out of range. *)
Theorem fetch_past_memory (c : chip8_t) (cfg : config_t) :
  wf c -> 4094 < PC c ->
  emulate_instruction c cfg = Fault (RamOOB (Z.max (PC c) 4096)).
Proof. exact (fetch_oob c cfg). Qed.

Lemma fetch_past_memory_witness :
  PC (state_of (run 2 (boot [0x1F; 0xFE]))) = 4096 /\
  emulate_instruction (state_of (run 2 (boot [0x1F; 0xFE]))) default_config
    = Fault (RamOOB 4096).
Proof.
  split; [by_eval|].
  apply (fetch_past_memory (state_of (run 2 (boot [0x1F; 0xFE]))) default_config);
    by_eval.
Defined.

(** X9. The decoded fields determine the opcode: a 16-bit opcode is its top
    nibble, X, Y and N in this order, NNN is X, Y, N and NN is Y, N. *)
Theorem decode_fields_reassemble (op : Z) :
  0 <= op < 65536 ->
  let i := decode op in
  op = top_nibble op * 4096 + X i * 256 + Y i * 16 + N i /\
  NNN i = X i * 256 + Y i * 16 + N i /\
  NN i = Y i * 16 + N i.
Proof.
  intros Hop i. unfold i. rewrite decode_fields. cbn [X Y N NN NNN].
  unfold top_nibble.
  change 4095 with (Z.ones 12). change 255 with (Z.ones 8).
  change 15 with (Z.ones 4).
  rewrite !Z.land_ones, !Z.shiftr_div_pow2 by lia.
  change (2 ^ 12) with 4096. change (2 ^ 8) with 256. change (2 ^ 4) with 16.
  pose proof (Z.div_mod op 4096). pose proof (Z.mod_pos_bound op 4096).
  pose proof (Z.div_mod op 256). pose proof (Z.mod_pos_bound op 256).
  pose proof (Z.div_mod op 16). pose proof (Z.mod_pos_bound op 16).
  pose proof (Z.div_mod (op / 4096) 16). pose proof (Z.mod_pos_bound (op / 4096) 16).
  pose proof (Z.div_mod (op / 256) 16). pose proof (Z.mod_pos_bound (op / 256) 16).
  pose proof (Z.div_mod (op / 16) 16). pose proof (Z.mod_pos_bound (op / 16) 16).
  assert (op / 4096 / 16 = 0) by (rewrite Z.div_div by lia; apply Z.div_small; lia).
  assert (op / 256 / 16 = op / 4096) by (rewrite Z.div_div by lia; done).
  assert (op / 16 / 16 = op / 256) by (rewrite Z.div_div by lia; done).
  lia.
Qed.

Lemma decode_fields_reassemble_witness :
  0xD125 = top_nibble 0xD125 * 4096 + 1 * 256 + 2 * 16 + 5.
Proof.
  destruct (decode_fields_reassemble 0xD125) as (H & _ & _); [lia|].
  exact H.
Defined.

(** ** The draw opcode: what else it does and when it completes *)

Lemma draw_sprite_oob (X0 : Z) (rows : nat) :
  forall (i Yc : Z) (c : chip8_t),
    length (ram c) = RAM_SIZE ->
    length (display c) = DISPLAY_SIZE -> length (V c) = 16%nat ->
    0 <= X0 < 64 -> 0 <= Yc < 32 ->
    0 <= i -> i + Z.of_nat rows < 256 ->
    0 <= I c -> I c + i <= 4096 ->
    4096 < I c + i + Z.min (Z.of_nat rows) (32 - Yc) ->
    draw_sprite default_config X0 rows i Yc c = Fault (RamOOB 4096).
Proof.
  induction rows as [|r IH]; intros i Yc c Hram Hd Hv HX HY Hi Hir HI Hin Hout.
  - lia.
  - rewrite draw_sprite_S, default_height.
    destruct (decide (I c + i = 4096)) as [E|Hne].
    { rewrite index_oob by (rewrite Hram; unfold RAM_SIZE; lia).
      by rewrite E. }
    rewrite index_ok, bind_Ok by (rewrite Hram; unfold RAM_SIZE; lia).
    destruct (draw_row_spec (ram c !!! Z.to_nat (I c + i)) Yc 8 X0 c)
      as (d1 & v1 & Hrow & Hd1 & _ & Hflag1); [done..|].
    rewrite Hrow, bind_Ok. cbv zeta.
    rewrite !cast_u8_small by lia.
    destruct (Z.geb_spec (Yc + 1) 32) as [Hedge|Hbelow]; [lia|].
    apply IH; cbn [ram display V I with_dv set_V set_display]; try done; try lia.
    destruct Hflag1 as [[_ ->]|[_ ->]]; [by rewrite length_insert|done].
Qed.

Lemma draw_completes_cases (c : chip8_t) :
  wf c -> 0 <= PC c <= 4094 ->
  top_nibble (opcode_at c) = 13 ->
  0 <= I c <= 4096 ->
  let i := decode (opcode_at c) in
  let Y0 := reg c (Y i) mod 32 in
  (I c + Z.min (N i) (32 - Y0) <= 4096 ->
   exists c', emulate_instruction c default_config = Ok c') /\
  (4096 < I c + Z.min (N i) (32 - Y0) ->
   emulate_instruction c default_config = Fault (RamOOB 4096)).
Proof.
  intros Hwf Hpc Htop HI i Y0. split.
  - intros Hread.
    destruct (draw_cycle_spec c Hwf Hpc Htop) as (d & v & Hrun & _); [lia|done|].
    by eexists.
  - intros Hout. pose proof Hwf as [Hram Hd _ Hv].
    pose proof (decode_ranges (opcode_at c)) as (_ & _ & HN & _ & _).
    fold i in HN.
    pose proof (Z.mod_pos_bound (reg c (X i)) 64 ltac:(lia)) as HX0.
    pose proof (Z.mod_pos_bound (reg c (Y i)) 32 ltac:(lia)) as HY0.
    rewrite emulate_draw by done. fold i Y0.
    apply draw_sprite_oob;
      cbn [ram display V I with_dv fetched set_V set_display set_inst set_PC];
      rewrite ?Z2Nat.id by lia; try done; try lia.
    by rewrite length_insert.
Qed.

(** X10. A draw cycle completes exactly when the sprite rows that fall on
    the screen lie inside memory, that is when I + min(N, 32 - Y0) <= 4096:
    rows below the bottom edge are never read, and otherwise the first byte
    read outside memory is the one at address 4096. *)
Theorem draw_completes_iff (c : chip8_t) :
  wf c -> 0 <= PC c <= 4094 ->
  top_nibble (opcode_at c) = 13 ->
  0 <= I c <= 4096 ->
  let i := decode (opcode_at c) in
  let Y0 := reg c (Y i) mod 32 in
  (I c + Z.min (N i) (32 - Y0) <= 4096 ->
   exists c', emulate_instruction c default_config = Ok c') /\
  (4096 < I c + Z.min (N i) (32 - Y0) ->
   emulate_instruction c default_config = Fault (RamOOB 4096)).
Proof. exact (draw_completes_cases c). Qed.

Lemma draw_completes_iff_witness :
  I bottom_demo = 4095 /\ N (decode (opcode_at bottom_demo)) = 15 /\
  (exists c', emulate_instruction bottom_demo default_config = Ok c') /\
  emulate_instruction past_ram_demo default_config = Fault (RamOOB 4096).
Proof.
  split; [by_eval|]. split; [by_eval|]. split.
  - apply (draw_completes_iff bottom_demo); by_eval.
  - apply (draw_completes_iff past_ram_demo); by_eval.
Defined.

Lemma draw_row_regs (cfg : config_t) (data Yc : Z) (n : nat) :
  forall (Xc : Z) (c c' : chip8_t),
    draw_row cfg data Yc n Xc c = Ok c' ->
    V c' = V c \/ V c' = <[15%nat := 1]> (V c).
Proof.
  induction n as [|j IH]; intros Xc c c' Hrun.
  - injection Hrun as <-. by left.
  - rewrite draw_row_S in Hrun. cbv zeta in Hrun.
    apply bind_inv in Hrun as (pixel & _ & Hrun).
    apply bind_inv in Hrun as (c1 & Hflag & Hrun).
    apply bind_inv in Hrun as (d1 & _ & Hrun).
    assert (V c1 = V c \/ V c1 = <[15%nat := 1]> (V c)) as Hc1.
    { destruct (_ && _).
      - apply bind_inv in Hflag as (v1 & Hst & [= <-]).
        apply store_inv in Hst as [-> _]. by right.
      - injection Hflag as <-. by left. }
    destruct (_ >=? _).
    + by injection Hrun as <-.
    + apply IH in Hrun. cbn [V set_display] in Hrun.
      destruct Hrun as [->| ->]; [done|].
      right. destruct Hc1 as [->| ->]; [done|].
      by rewrite list_insert_insert_eq.
Qed.

Lemma draw_sprite_regs (cfg : config_t) (X0 : Z) (rows : nat) :
  forall (i Yc : Z) (c c' : chip8_t),
    draw_sprite cfg X0 rows i Yc c = Ok c' ->
    V c' = V c \/ V c' = <[15%nat := 1]> (V c).
Proof.
  induction rows as [|r IH]; intros i Yc c c' Hrun.
  - injection Hrun as <-. by left.
  - rewrite draw_sprite_S in Hrun.
    apply bind_inv in Hrun as (data & _ & Hrun).
    apply bind_inv in Hrun as (c1 & Hr & Hrun).
    apply draw_row_regs in Hr. cbv zeta in Hrun. destruct (_ >=? _).
    + by injection Hrun as <-.
    + apply IH in Hrun.
      destruct Hrun as [->| ->]; [done|]. right.
      destruct Hr as [->| ->]; [done|]. by rewrite list_insert_insert_eq.
Qed.

(** X11. A draw cycle that completes changes only the display, register 15,
    the program counter (advanced by 2) and the transient instruction: the
    other fifteen registers, the index register, memory and the call stack
    are as before, and the array sizes are kept. *)
Theorem draw_frame (c c' : chip8_t) (cfg : config_t) :
  wf c -> top_nibble (opcode_at c) = 13 ->
  emulate_instruction c cfg = Ok c' ->
  wf c' /\
  (forall k, 0 <= k < 15 -> reg c' k = reg c k) /\
  (reg c' 15 = 0 \/ reg c' 15 = 1) /\
  PC c' = PC c + 2 /\ I c' = I c /\ ram c' = ram c /\
  stack c' = stack c /\ stack_ptr c' = stack_ptr c.
Proof.
  intros Hwf Htop Hrun. pose proof Hwf as [Hram Hd Hs Hv].
  pose proof (emulate_fetch_inv c c' cfg Hram Hrun) as Hpc.
  rewrite emulate_fetch, execute_D in Hrun by done.
  cbn [inst set_inst V set_PC] in Hrun.
  apply bind_inv in Hrun as (vx & _ & Hrun).
  apply bind_inv in Hrun as (xm & _ & Hrun).
  apply bind_inv in Hrun as (vy & _ & Hrun).
  apply bind_inv in Hrun as (ym & _ & Hrun).
  apply bind_inv in Hrun as (v0 & Hst & Hrun).
  apply store_inv in Hst as [-> _].
  change (Z.to_nat 15) with 15%nat in Hrun.
  pose proof (draw_sprite_regs _ _ _ _ _ _ _ Hrun) as HV.
  apply draw_sprite_frame in Hrun as (d & v & -> & Hdl & Hvl).
  cbn [V display with_dv set_V set_display set_inst set_PC] in HV, Hdl, Hvl.
  rewrite length_insert in Hvl.
  split; [split; cbn [ram display stack V with_dv set_V set_display set_inst set_PC];
          congruence|].
  unfold reg. cbn [PC I ram stack stack_ptr V with_dv set_V set_display set_inst set_PC].
  split; [|split; [|done]].
  - intros k Hk.
    destruct HV as [->| ->]; rewrite ?list_insert_insert_eq;
      apply list_lookup_total_insert_ne; lia.
  - destruct HV as [->| ->]; rewrite ?list_insert_insert_eq;
      rewrite list_lookup_total_insert_eq by lia; auto.
Qed.

Lemma draw_frame_witness :
  reg clip_demo 0 = 60 /\
  reg (state_of (run 3 (boot clip_rom))) 0 = 60 /\
  I (state_of (run 3 (boot clip_rom))) = I clip_demo /\
  PC (state_of (run 3 (boot clip_rom))) = PC clip_demo + 2.
Proof.
  assert (Hrun : emulate_instruction clip_demo default_config
                 = Ok (state_of (run 3 (boot clip_rom)))) by by_eval.
  destruct (draw_frame clip_demo _ default_config ltac:(by_eval) ltac:(by_eval) Hrun)
    as (_ & Hregs & _ & Hpc & HI & _).
  split; [by_eval|]. split; [|split; [exact HI|exact Hpc]].
  rewrite Hregs by lia. by_eval.
Defined.

(** X12. A draw cycle DXY0, with no rows, changes no cell and reads no
    sprite byte, wherever I points, but still sets register 15 to 0. *)
Theorem draw_no_rows (c : chip8_t) :
  wf c -> 0 <= PC c <= 4094 ->
  top_nibble (opcode_at c) = 13 -> N (decode (opcode_at c)) = 0 ->
  exists c',
    emulate_instruction c default_config = Ok c' /\
    display c' = display c /\ reg c' 15 = 0.
Proof.
  intros Hwf Hpc Htop HN. pose proof Hwf as [_ _ _ Hv].
  rewrite emulate_draw by done. rewrite HN. cbn [Z.to_nat draw_sprite].
  eexists. split; [reflexivity|]. split; [reflexivity|].
  unfold reg. cbn [V with_dv set_V]. change (Z.to_nat 15) with 15%nat.
  apply list_lookup_total_insert_eq. lia.
Qed.

Lemma draw_no_rows_witness :
  I no_rows_demo = 0xFFFF /\ reg no_rows_demo 15 = 7 /\
  exists c',
    emulate_instruction no_rows_demo default_config = Ok c' /\
    display c' = display no_rows_demo /\ reg c' 15 = 0.
Proof.
  split; [by_eval|]. split; [by_eval|].
  destruct (draw_no_rows no_rows_demo) as (c' & Hrun & Hd & Hf); [by_eval..|].
  exists c'. split; [exact Hrun|]. split; [exact Hd|exact Hf].
Defined.

(** X13. Drawing the same sprite twice in a row restores the display: when
    the draw opcode DXYN is followed by the same opcode, neither X nor Y is
    register 15 and the sprite rows on the screen lie inside memory, the
    two cycles complete and leave every cell as it was. *)
Theorem draw_twice_restores_display (c : chip8_t) :
  wf c -> 0 <= PC c <= 4092 ->
  top_nibble (opcode_at c) = 13 ->
  word_at (ram c) (PC c + 2) = opcode_at c ->
  let i := decode (opcode_at c) in
  let Y0 := reg c (Y i) mod 32 in
  X i <> 15 -> Y i <> 15 ->
  0 <= I c -> I c + Z.min (N i) (32 - Y0) <= 4096 ->
  exists c1 c2,
    emulate_instruction c default_config = Ok c1 /\
    emulate_instruction c1 default_config = Ok c2 /\
    display c2 = display c /\
    PC c2 = PC c + 4.
Proof.
  intros Hwf Hpc Htop Hsame i Y0 HX HY HI Hread.
  pose proof Hwf as [Hram Hd Hs Hv].
  pose proof (decode_ranges (opcode_at c)) as (_ & _ & _ & HXr & HYr).
  fold i in HXr, HYr.
  destruct (draw_cycle_spec c Hwf ltac:(lia) Htop HI Hread)
    as (d1 & v1 & Hrun1 & Hd1 & Hpx1 & Hflag1).
  fold i Y0 in Hpx1.
  set (c1 := with_dv (fetched c) d1 v1) in *.
  assert (length v1 = 16%nat) as Hv1.
  { destruct Hflag1 as [[_ ->]|[_ ->]]; by rewrite length_insert. }
  assert (wf c1) as Hwf1 by (by split).
  assert (opcode_at c1 = opcode_at c) as Hop1 by exact Hsame.
  assert (forall k, 0 <= k < 15 -> reg c1 k = reg c k) as Hregs.
  { intros k Hk. unfold reg, c1. cbn [V with_dv set_V].
    destruct Hflag1 as [[_ ->]|[_ ->]]; apply list_lookup_total_insert_ne; lia. }
  destruct (draw_cycle_spec c1 Hwf1) as (d2 & v2 & Hrun2 & Hd2 & Hpx2 & _).
  { change (PC c1) with (PC c + 2). lia. }
  { by rewrite Hop1. }
  { exact HI. }
  { rewrite Hop1. fold i. rewrite (Hregs (Y i)) by lia. exact Hread. }
  rewrite Hop1 in Hpx2. fold i in Hpx2.
  rewrite (Hregs (X i)), (Hregs (Y i)) in Hpx2 by lia.
  fold Y0 in Hpx2.
  change (display c1) with d1 in Hpx2. change (ram c1) with (ram c) in Hpx2.
  change (I c1) with (I c) in Hpx2.
  exists c1, (with_dv (fetched c1) d2 v2).
  split; [exact Hrun1|]. split; [exact Hrun2|]. split.
  - cbn [display with_dv set_V set_display].
    apply display_ext; [done..|].
    intros x y Hx Hy. rewrite Hpx2, Hpx1 by done.
    by rewrite xorb_assoc, xorb_nilpotent, xorb_false_r.
  - change (PC c + 2 + 2 = PC c + 4). lia.
Qed.

Lemma draw_twice_restores_display_witness :
  display blank_demo <> display collide_demo /\
  exists c1 c2,
    emulate_instruction blank_demo default_config = Ok c1 /\
    emulate_instruction c1 default_config = Ok c2 /\
    display c2 = display blank_demo.
Proof.
  split.
  { intros Heq. apply (f_equal (fun d => pixel_at d 0 0)) in Heq.
    vm_compute in Heq. discriminate Heq. }
  destruct (draw_twice_restores_display blank_demo)
    as (c1 & c2 & H1 & H2 & Hd & _);
    [by_eval|by_eval|by_eval|by_eval|vm_compute; discriminate
    |vm_compute; discriminate|by_eval|by_eval|].
  exists c1, c2. split; [exact H1|]. split; [exact H2|exact Hd].
Defined.

(** ** Invariants of a run, and the ways a cycle can go wrong *)

Lemma execute_state_inv (c c' : chip8_t) (cfg : config_t) :
  length (V c) = 16%nat -> length (stack c) = STACK_SIZE ->
  Forall (fun b => 0 <= b < 256) (V c) ->
  0 <= I c < 4096 ->
  (exists sp, stack_ptr c = Some sp /\ 0 <= sp <= 12) ->
  0 <= NNN (inst c) < 4096 -> 0 <= NN (inst c) < 256 ->
  execute c cfg = Ok c' ->
  Forall (fun b => 0 <= b < 256) (V c') /\
  0 <= I c' < 4096 /\
  exists sp', stack_ptr c' = Some sp' /\ 0 <= sp' <= 12.
Proof.
  intros Hv Hs HV HI (sp & Hsp & Hr) HNNN HNN Hrun.
  destruct (top_nibble_cases (opcode (inst c)))
    as [H|[H|[H|[H|[H|[H|[H|(H0 & H1 & H2 & H6 & H7 & HA & HD)]]]]]]].
  - rewrite execute_0 in Hrun by done.
    destruct (_ =? 224); [injection Hrun as <-; eauto|].
    destruct (_ =? 238); [|injection Hrun as <-; eauto].
    rewrite Hsp in Hrun.
    apply bind_inv in Hrun as (ret & Hret & [= <-]).
    apply index_inv in Hret as [Hin _]. rewrite Hs in Hin. unfold STACK_SIZE in Hin.
    split; [done|]. split; [done|]. exists (sp - 1). split; [done|lia].
  - rewrite execute_1 in Hrun by done. injection Hrun as <-. eauto.
  - rewrite execute_2 in Hrun by done. rewrite Hsp in Hrun.
    apply bind_inv in Hrun as (stk & Hst & [= <-]).
    unfold store in Hst. case_bool_decide as Hin; [|done].
    rewrite Hs in Hin. unfold STACK_SIZE in Hin.
    split; [done|]. split; [done|]. exists (sp + 1). split; [done|lia].
  - rewrite execute_6 in Hrun by done.
    apply bind_inv in Hrun as (v & Hst & [= <-]).
    apply store_inv in Hst as [-> _].
    split; [by apply Forall_insert|]. eauto.
  - rewrite execute_7 in Hrun by done.
    apply bind_inv in Hrun as (vx & _ & Hrun).
    apply bind_inv in Hrun as (v & Hst & [= <-]).
    apply store_inv in Hst as [-> _].
    split; [|eauto]. apply Forall_insert; [done|].
    apply Z.mod_pos_bound. lia.
  - rewrite execute_A in Hrun by done. injection Hrun as <-.
    split; [done|]. split; [done|]. eauto.
  - rewrite execute_D in Hrun by done.
    apply bind_inv in Hrun as (vx & _ & Hrun).
    apply bind_inv in Hrun as (xm & _ & Hrun).
    apply bind_inv in Hrun as (vy & _ & Hrun).
    apply bind_inv in Hrun as (ym & _ & Hrun).
    apply bind_inv in Hrun as (v0 & Hst & Hrun).
    apply store_inv in Hst as [-> _].
    pose proof (draw_sprite_regs _ _ _ _ _ _ _ Hrun) as HV'.
    apply draw_sprite_frame in Hrun as (d & v & -> & _ & _).
    cbn [V I stack_ptr with_dv set_V set_display] in *.
    split; [|eauto].
    assert (Forall (fun b => 0 <= b < 256) (<[Z.to_nat 15 := 0]> (V c))) as H0
      by (apply Forall_insert; [done|lia]).
    destruct HV' as [->| ->]; [done|]. apply Forall_insert; [done|lia].
  - rewrite execute_other in Hrun by done. injection Hrun as <-. eauto.
Qed.

Lemma emulate_machine_inv (c c' : chip8_t) (cfg : config_t) :
  machine_inv c -> emulate_instruction c cfg = Ok c' -> machine_inv c'.
Proof.
  intros (Hwf & HV & HI & Hpc & Hstk & Hsp) Hrun.
  destruct (emulate_inv c c' cfg) as (Hwf' & Hpc' & Hstk'); [done|done|].
  pose proof Hwf as [Hram Hd Hs Hv].
  pose proof (emulate_fetch_inv c c' cfg Hram Hrun) as Hfetch.
  rewrite emulate_fetch in Hrun by done.
  pose proof (decode_ranges (opcode_at c)) as (HNNN & HNN & _).
  apply execute_state_inv in Hrun as (HV' & HI' & Hsp'); [|done..].
  unfold machine_inv. tauto.
Qed.

Lemma reachable_inv (rom : list Z) (c : chip8_t) :
  reachable rom c -> machine_inv c.
Proof.
  induction 1 as [name c Hinit|c c' _ IH Hrun|c st _ IH].
  - pose proof (init_chip8_inv _ _ _ Hinit) as (Hwf & Hpc & Hstk).
    unfold init_chip8 in Hinit. cbv zeta in Hinit.
    destruct (_ >? _); [done|]. destruct (_ =? 0); [done|].
    injection Hinit as <-.
    split; [done|]. split; [by apply Forall_replicate|].
    split; [done|]. split; [done|]. split; [done|]. by exists 0.
  - by apply emulate_machine_inv in Hrun.
  - destruct IH as ([Hram Hd Hs Hv] & HV & HI & Hpc & Hstk & Hsp).
    split; [by split|].
    split; [exact HV|]. split; [exact HI|]. split; [exact Hpc|].
    split; [exact Hstk|exact Hsp].
Qed.

(** X14. Every machine [main] cycles on keeps its arrays at their declared
    sizes, holds bytes in its sixteen registers, a 12-bit address in the
    index register and a program counter of at most 4096, and has its stack
    pointer on one of the 12 slots of the call stack or just past the
    last. *)
Theorem reachable_machine_inv (rom : list Z) (c : chip8_t) :
  reachable rom c -> machine_inv c.
Proof. exact (reachable_inv rom c). Qed.

Lemma reachable_machine_inv_witness : machine_inv odd_pc_demo.
Proof. exact (reachable_machine_inv odd_jump_rom odd_pc_demo odd_pc_reachable). Defined.

(** X15. The ways a cycle of a machine [main] cycles on can go wrong are
    four, all of them accesses outside an array: a fetch above 4094, a
    return on an empty call stack, a call on a full one, and a draw whose
    sprite rows on the screen reach address 4096.  In particular the display
    and the registers are never indexed out of range. *)
Theorem cycle_fault_cases (rom : list Z) (c : chip8_t) (f : fault) :
  reachable rom c ->
  emulate_instruction c default_config = Fault f ->
  let op := opcode_at c in
  (4094 < PC c /\ f = RamOOB (Z.max (PC c) 4096)) \/
  (PC c <= 4094 /\ top_nibble op = 0 /\ Z.land op 0xFF = 0xEE /\
   stack_ptr c = Some 0 /\ f = StackOOB (-1)) \/
  (PC c <= 4094 /\ top_nibble op = 2 /\
   stack_ptr c = Some 12 /\ f = StackOOB 12) \/
  (PC c <= 4094 /\ top_nibble op = 13 /\
   4096 < I c + Z.min (N (decode op)) (32 - reg c (Y (decode op)) mod 32) /\
   f = RamOOB 4096).
Proof.
  intros Hreach Hrun op.
  pose proof (reachable_inv rom c Hreach)
    as (Hwf & HV & HI & Hpc & Hstk & sp & Hsp & Hr).
  pose proof Hwf as [Hram Hd Hs Hv].
  destruct (decide (4094 < PC c)) as [Hhigh|Hlow].
  { left. split; [done|].
    rewrite fetch_oob in Hrun by done. by injection Hrun as <-. }
  right.
  assert (0 <= PC c <= 4094) as Hfetch by lia.
  pose proof (decode_ranges op) as (HNNN & HNN & HN & HX & HY).
  pose proof Hrun as Hrun0.
  rewrite emulate_fetch in Hrun by done. fold op in Hrun.
  destruct (top_nibble_cases op)
    as [H|[H|[H|[H|[H|[H|[H|(H0 & H1 & H2 & H6 & H7 & HA & HD)]]]]]]].
  - rewrite execute_0 in Hrun by done.
    cbn [NN inst set_inst stack_ptr stack set_PC] in Hrun.
    rewrite decode_fields in Hrun. cbn [NN] in Hrun.
    destruct (_ =? 224); [done|].
    destruct (Z.eqb_spec (Z.land op 255) 238) as [Hee|]; [|done].
    rewrite Hsp in Hrun.
    destruct (decide (sp = 0)) as [->|Hne].
    + rewrite index_oob in Hrun by lia. injection Hrun as <-.
      left. by repeat split; try lia.
    + rewrite index_ok in Hrun by (rewrite Hs; unfold STACK_SIZE; lia). done.
  - rewrite execute_1 in Hrun by done. done.
  - rewrite execute_2 in Hrun by done.
    cbn [inst set_inst stack_ptr stack set_PC PC] in Hrun. rewrite Hsp in Hrun.
    destruct (decide (sp = 12)) as [->|Hne].
    + rewrite store_oob in Hrun by (rewrite Hs; unfold STACK_SIZE; lia).
      injection Hrun as <-. right. left. by repeat split; try lia.
    + rewrite store_ok in Hrun by (rewrite Hs; unfold STACK_SIZE; lia). done.
  - rewrite execute_6 in Hrun by done.
    cbn [inst set_inst V set_PC] in Hrun.
    rewrite store_ok in Hrun by (rewrite Hv; lia). done.
  - rewrite execute_7 in Hrun by done.
    cbn [inst set_inst V set_PC] in Hrun.
    rewrite index_ok, bind_Ok in Hrun by (rewrite Hv; lia).
    rewrite store_ok in Hrun by (rewrite Hv; lia). done.
  - rewrite execute_A in Hrun by done. done.
  - right. right. split; [lia|]. split; [done|].
    destruct (draw_completes_cases c Hwf Hfetch H ltac:(lia)) as [Hok Hbad].
    fold op in Hok, Hbad.
    destruct (decide (I c + Z.min (N (decode op)) (32 - reg c (Y (decode op)) mod 32)
                      <= 4096)) as [Hin|Hout].
    + destruct (Hok Hin) as [c' Hc']. congruence.
    + split; [lia|]. rewrite Hbad in Hrun0 by lia. by injection Hrun0 as <-.
  - rewrite execute_other in Hrun by done. done.
Qed.

Lemma cycle_fault_cases_witness :
  reachable [0xAF; 0xFF; 0xD0; 0x02] past_ram_demo /\
  4096 < I past_ram_demo +
         Z.min (N (decode (opcode_at past_ram_demo)))
               (32 - reg past_ram_demo (Y (decode (opcode_at past_ram_demo))) mod 32).
Proof.
  assert (reachable [0xAF; 0xFF; 0xD0; 0x02] past_ram_demo) as Hreach.
  { apply reach_cycle with (boot [0xAF; 0xFF; 0xD0; 0x02]); [|by_eval].
    apply reach_init with "rom.ch8"%string. by_eval. }
  split; [exact Hreach|].
  assert (emulate_instruction past_ram_demo default_config = Fault (RamOOB 4096))
    as Hrun by by_eval.
  destruct (cycle_fault_cases _ _ _ Hreach Hrun)
    as [[Hpc _]|[(_ & Htop & _)|[(_ & Htop & _)|(_ & _ & Hout & _)]]].
  - vm_compute in Hpc. discriminate Hpc.
  - vm_compute in Htop. discriminate Htop.
  - vm_compute in Htop. discriminate Htop.
  - exact Hout.
Defined.

(** ** Construction *)

Lemma lookup_memcpy {A : Type} (dst src : list A) (off i : nat) :
  (off + length src <= length dst)%nat ->
  memcpy dst off src !! i =
  if decide (off <= i < off + length src)%nat then src !! (i - off)%nat
  else dst !! i.
Proof.
  intros Hfit. unfold memcpy. case_decide as Hi.
  - rewrite lookup_app_r by (rewrite length_take; lia).
    rewrite length_take, lookup_app_l by (rewrite ?length_take; lia).
    f_equal. lia.
  - destruct (decide (i < off)%nat).
    + rewrite lookup_app_l by (rewrite length_take; lia).
      by apply lookup_take_lt.
    + rewrite lookup_app_r by (rewrite length_take; lia).
      rewrite lookup_app_r by (rewrite length_take; lia).
      rewrite lookup_drop, length_take. f_equal. lia.
Qed.

(** X16. Construction succeeds exactly on a ROM file that exists and holds
    between 1 and 3584 bytes: a missing file, an empty file (of which
    [fread] reads no item) and a file larger than the memory above 0x200 are
    all refused. *)
Theorem init_chip8_succeeds_iff (c : chip8_t) (name : string)
    (rom_file : option (list Z)) :
  fst (init_chip8 c name rom_file) = true <->
  exists rom, rom_file = Some rom /\ (0 < length rom <= 3584)%nat.
Proof.
  unfold init_chip8. cbv zeta. destruct rom_file as [rom|]; cbn [fst].
  - destruct (Z.gtb_spec (Z.of_nat (length rom)) (Z.of_nat RAM_SIZE - 512))
      as [Hbig|Hfit]; unfold RAM_SIZE in *.
    + split; [done|]. intros (rom' & [= <-] & Hlen). lia.
    + destruct (Z.eqb_spec (Z.of_nat (length rom)) 0) as [Hz|Hnz]; cbn [fst].
      * split; [done|]. intros (rom' & [= <-] & Hlen). lia.
      * split; [|done]. intros _. exists rom. split; [done|lia].
  - split; [done|]. by intros (rom & ? & _).
Qed.

(** X17. On success the machine holds the font at addresses 0..79 and the
    ROM bytes from 0x200 on, every other byte of memory being as before;
    the program counter is 0x200, the run state RUNNING, the call stack
    empty, and registers, index register and display are untouched. *)
Theorem init_chip8_loads_rom (c c' : chip8_t) (name : string) (rom : list Z) :
  wf c ->
  init_chip8 c name (Some rom) = (true, c') ->
  wf c' /\
  (forall a, (a < 80)%nat -> ram c' !! a = font !! a) /\
  (forall k, (k < length rom)%nat -> ram c' !! (512 + k)%nat = rom !! k) /\
  (forall a, (80 <= a < 512 \/ 512 + length rom <= a)%nat ->
     ram c' !! a = ram c !! a) /\
  PC c' = 0x200 /\ state c' = RUNNING /\ rom_name c' = Some name /\
  stack_ptr c' = Some 0 /\ call_stack c' = [] /\
  V c' = V c /\ I c' = I c /\ display c' = display c /\ stack c' = stack c.
Proof.
  intros Hwf Hinit.
  destruct (init_chip8_true c c' name rom Hwf Hinit) as (Hwf' & _).
  pose proof Hwf as [Hram _ _ _].
  unfold init_chip8 in Hinit. cbv zeta in Hinit.
  destruct (Z.gtb_spec (Z.of_nat (length rom)) (Z.of_nat RAM_SIZE - 512))
    as [|Hfit]; [done|].
  destruct (_ =? 0); [done|]. injection Hinit as <-.
  unfold RAM_SIZE in *. change (Z.to_nat 512) with 512%nat.
  assert (length font = 80%nat) as Hfont by reflexivity.
  assert (length (memcpy (ram c) 0 font) = 4096%nat) as Hlen1.
  { rewrite length_memcpy; [done|]. rewrite Hram, Hfont. lia. }
  split; [done|].
  unfold call_stack.
  cbn [ram display stack V I PC state rom_name stack_ptr
       set_ram set_state set_PC set_rom_name set_stack_ptr].
  split; [|split; [|split; [|done]]].
  - intros a Ha. rewrite !lookup_memcpy by (rewrite ?Hlen1, ?Hram, ?Hfont; lia).
    rewrite decide_False by lia. rewrite decide_True by (rewrite Hfont; lia).
    f_equal. lia.
  - intros k Hk. rewrite lookup_memcpy by (rewrite Hlen1; lia).
    rewrite decide_True by lia. f_equal. lia.
  - intros a Ha. rewrite !lookup_memcpy by (rewrite ?Hlen1, ?Hram, ?Hfont; lia).
    rewrite decide_False by lia. rewrite decide_False by (rewrite Hfont; lia).
    done.
Qed.

Lemma init_chip8_loads_rom_witness :
  ram (boot clip_rom) !! 0%nat = Some 0xF0 /\
  ram (boot clip_rom) !! 512%nat = Some 0x60 /\
  ram (boot clip_rom) !! 521%nat = Some 0 /\
  PC (boot clip_rom) = 0x200.
Proof.
  assert (init_chip8 zero_chip8 "rom.ch8" (Some clip_rom) = (true, boot clip_rom))
    as Hinit by by_eval.
  destruct (init_chip8_loads_rom zero_chip8 (boot clip_rom) "rom.ch8" clip_rom
              ltac:(by_eval) Hinit)
    as (_ & Hfont & Hrom & Hrest & Hpc & _).
  split; [by rewrite Hfont by lia|].
  split; [change 512%nat with (512 + 0)%nat;
          rewrite Hrom by (cbn [clip_rom length]; lia); reflexivity|].
  split; [|exact Hpc].
  rewrite Hrest by (cbn [clip_rom length]; lia). by_eval.
Defined.

(** X18. Whenever construction fails, for a missing, an empty or an
    oversized ROM file, the machine it leaves differs from the one it was
    given by the font bytes at addresses 0..79 only. *)
Theorem init_chip8_failure_leaves_font_only (c c' : chip8_t) (name : string)
    (rom_file : option (list Z)) :
  wf c ->
  init_chip8 c name rom_file = (false, c') ->
  c' = set_ram c (ram c') /\
  length (ram c') = RAM_SIZE /\
  (forall a, (a < 80)%nat -> ram c' !! a = font !! a) /\
  (forall a, (80 <= a)%nat -> ram c' !! a = ram c !! a).
Proof.
  intros [Hram _ _ _] Hinit.
  assert (length font = 80%nat) as Hfont by reflexivity.
  assert (c' = set_ram c (memcpy (ram c) 0 font)) as ->.
  { unfold init_chip8 in Hinit. cbv zeta in Hinit.
    destruct rom_file as [rom|]; [|by injection Hinit as <-].
    destruct (_ >? _); [by injection Hinit as <-|].
    destruct (_ =? 0); [by injection Hinit as <-|done]. }
  cbn [ram set_ram]. unfold RAM_SIZE in *.
  split; [done|]. split; [|split].
  - rewrite length_memcpy; [done|]. rewrite Hram, Hfont. lia.
  - intros a Ha. rewrite lookup_memcpy by (rewrite Hram, Hfont; lia).
    rewrite decide_True by (rewrite Hfont; lia). f_equal. lia.
  - intros a Ha. rewrite lookup_memcpy by (rewrite Hram, Hfont; lia).
    rewrite decide_False by (rewrite Hfont; lia). done.
Qed.

Lemma init_chip8_failure_leaves_font_only_witness :
  exists c',
    init_chip8 zero_chip8 "none.ch8" None = (false, c') /\
    c' = set_ram zero_chip8 (ram c') /\
    ram c' !! 79%nat = Some 0x80 /\ ram c' !! 80%nat = Some 0.
Proof.
  eexists. split; [reflexivity|].
  destruct (init_chip8_failure_leaves_font_only zero_chip8 _ "none.ch8" None
              ltac:(by_eval) eq_refl)
    as (Hframe & _ & Hfont & Hrest).
  split; [exact Hframe|]. split.
  - by rewrite Hfont by lia.
  - rewrite Hrest by lia. by_eval.
Defined.

(** ** Input handling *)

Lemma handle_input_skip (c : chip8_t) (e : SDL_Event) (events : list SDL_Event) :
  decisive e = false ->
  handle_input c (e :: events) = handle_input c events.
Proof. by destruct e as [|[| |sym]|sym|ty]. Qed.

Lemma handle_input_decisive (c : chip8_t) (e : SDL_Event) (events : list SDL_Event) :
  decisive e = true ->
  exists out,
    handle_input c (e :: events)
    = (set_state c (next_state (state c) e), events, out).
Proof.
  destruct e as [|[| |sym]|sym|ty]; try done; intros _; cbn [handle_input next_state].
  - by eexists.
  - by eexists.
  - destruct (state c); by eexists.
Qed.

Lemma handle_input_drains (c : chip8_t) (events : list SDL_Event) :
  Forall (fun e => decisive e = false) events ->
  handle_input c events = (c, [], []).
Proof.
  induction 1 as [|e events He _ IH]; [done|].
  by rewrite handle_input_skip.
Qed.

(** X19. When no pending event is a quit, an Escape press or a Space press,
    [handle_input] reads the whole queue and leaves the machine exactly as
    it was, printing nothing. *)
Theorem handle_input_ignores (c : chip8_t) (events : list SDL_Event) :
  Forall (fun e => decisive e = false) events ->
  handle_input c events = (c, [], []).
Proof. exact (handle_input_drains c events). Qed.

Lemma handle_input_ignores_witness :
  handle_input (boot clip_rom)
    [SDL_KEYUP SDLK_SPACE; SDL_KEYDOWN (SDLK_other 97); SDL_other 1024]
  = (boot clip_rom, [], []).
Proof.
  apply handle_input_ignores.
  repeat constructor.
Defined.

(** X20. [handle_input] acts on the first quit, Escape press or Space press
    in the queue and returns at once: the events before it are dropped, the
    events behind it stay pending, and only the run state of the machine
    changes: to [QUIT] on a quit or Escape; on Space to [PAUSED] from
    [RUNNING] and to [RUNNING] from any other state. *)
Theorem handle_input_first_decisive (c : chip8_t) (e : SDL_Event)
    (before behind : list SDL_Event) :
  Forall (fun e => decisive e = false) before ->
  decisive e = true ->
  exists out,
    handle_input c (before ++ e :: behind)
    = (set_state c (next_state (state c) e), behind, out).
Proof.
  intros Hbefore He. induction Hbefore as [|e0 before He0 _ IH].
  - by apply handle_input_decisive.
  - cbn [app]. by rewrite handle_input_skip.
Qed.

Lemma handle_input_first_decisive_witness :
  exists out,
    handle_input (boot clip_rom)
      [SDL_KEYUP SDLK_ESCAPE; SDL_KEYDOWN SDLK_SPACE; SDL_QUIT]
    = (set_state (boot clip_rom) PAUSED, [SDL_QUIT], out).
Proof.
  destruct (handle_input_first_decisive (boot clip_rom) (SDL_KEYDOWN SDLK_SPACE)
              [SDL_KEYUP SDLK_ESCAPE] [SDL_QUIT])
    as [out Hout]; [repeat constructor|reflexivity|].
  exists out. exact Hout.
Defined.

(** ** Rendering *)

Lemma channel_byte (color shift : Z) :
  0 <= shift -> channel color shift = (color / 2 ^ shift) mod 256.
Proof.
  intros Hs. unfold channel. change 255 with (Z.ones 8).
  rewrite Z.land_ones, Z.shiftr_div_pow2 by lia.
  change (2 ^ 8) with 256. unfold cast_u8. change (2 ^ 8) with 256.
  by rewrite Z.mod_mod.
Qed.

(** X21. The four channels [clear_screen] and [update_screen] take from a
    32-bit RGBA colour are bytes, and put back in the order r, g, b, a they
    give the colour again. *)
Theorem color_channels_roundtrip (color : Z) :
  0 <= color < 2 ^ 32 ->
  let r := channel color 24 in
  let g := channel color 16 in
  let b := channel color 8 in
  let a := channel color 0 in
  0 <= r < 256 /\ 0 <= g < 256 /\ 0 <= b < 256 /\ 0 <= a < 256 /\
  r * 2 ^ 24 + g * 2 ^ 16 + b * 2 ^ 8 + a = color.
Proof.
  intros Hc r g b a. unfold r, g, b, a.
  rewrite !channel_byte by lia.
  change (2 ^ 32) with 4294967296 in Hc.
  change (2 ^ 24) with 16777216. change (2 ^ 16) with 65536.
  change (2 ^ 8) with 256. change (2 ^ 0) with 1.
  rewrite Z.div_1_r.
  pose proof (Z.div_mod color 16777216). pose proof (Z.mod_pos_bound color 16777216).
  pose proof (Z.div_mod color 65536). pose proof (Z.mod_pos_bound color 65536).
  pose proof (Z.div_mod color 256). pose proof (Z.mod_pos_bound color 256).
  pose proof (Z.div_mod (color / 16777216) 256).
  pose proof (Z.mod_pos_bound (color / 16777216) 256).
  pose proof (Z.div_mod (color / 65536) 256).
  pose proof (Z.mod_pos_bound (color / 65536) 256).
  pose proof (Z.div_mod (color / 256) 256).
  pose proof (Z.mod_pos_bound (color / 256) 256).
  assert (color / 16777216 / 256 = 0)
    by (rewrite Z.div_div by lia; apply Z.div_small; lia).
  assert (color / 65536 / 256 = color / 16777216) by (by rewrite Z.div_div by lia).
  assert (color / 256 / 256 = color / 65536) by (by rewrite Z.div_div by lia).
  lia.
Qed.

Lemma color_channels_roundtrip_witness :
  channel 0x11223344 24 = 0x11 /\ channel 0x11223344 16 = 0x22 /\
  channel 0x11223344 8 = 0x33 /\ channel 0x11223344 0 = 0x44 /\
  channel 0x11223344 24 * 2 ^ 24 + channel 0x11223344 16 * 2 ^ 16 +
  channel 0x11223344 8 * 2 ^ 8 + channel 0x11223344 0 = 0x11223344.
Proof.
  destruct (color_channels_roundtrip 0x11223344) as (_ & _ & _ & _ & H); [lia|].
  do 4 (split; [reflexivity|]). exact H.
Defined.

Lemma update_screen_cells_default (c : chip8_t) (n : nat) :
  forall i : nat,
    (i + n <= length (display c))%nat -> (length (display c) <= 2048)%nat ->
    update_screen_cells default_config c n (Z.of_nat i)
    = Ok (concat (imap (fun k on => cell_calls (i + k) on)
                       (take n (drop i (display c))))).
Proof.
  induction n as [|n IH]; intros i Hi Hlen; [done|].
  destruct (lookup_lt_is_Some_2 (display c) i) as [on Hon]; [lia|].
  rewrite (drop_S _ _ _ Hon). cbn [take imap concat].
  cbn [update_screen_cells]. unfold umod, udiv.
  change (window_width default_config =? 0) with false. cbv iota.
  rewrite !bind_Ok.
  unfold index. rewrite bool_decide_eq_true_2 by lia.
  rewrite Nat2Z.id, Hon, bind_Ok.
  rewrite (cast_u32_small (Z.of_nat i + 1)) by lia.
  replace (Z.of_nat i + 1) with (Z.of_nat (S i)) by lia.
  rewrite IH by lia. rewrite bind_Ok.
  f_equal. f_equal.
  - replace (i + 0)%nat with i by lia.
    change (window_width default_config) with 64.
    change (scale_factor default_config) with 20.
    pose proof (Z.mod_pos_bound (Z.of_nat i) 64 ltac:(lia)).
    assert (0 <= Z.of_nat i / 64 < 32)
      by (split; [apply Z.div_pos; lia|apply Z.div_lt_upper_bound; lia]).
    assert (forall z, 0 <= z < 2 ^ 31 -> cast_int z = z) as Hint.
    { intros z Hz. unfold cast_int. cbv zeta.
      rewrite Z.mod_small by lia.
      destruct (Z.ltb_spec z (2 ^ 31)); [done|lia]. }
    rewrite !cast_u32_small by lia. rewrite !Hint by lia.
    unfold cell_calls, cell_rect.
    replace (Z.of_nat i mod 64 * 20) with (20 * (Z.of_nat i mod 64)) by lia.
    replace (Z.of_nat i / 64 * 20) with (20 * (Z.of_nat i / 64)) by lia.
    by destruct on.
  - f_equal. apply imap_ext. intros k on' _. cbn. f_equal. lia.
Qed.

(** X22. Under the configuration [main] uses, [update_screen] makes for the
    2048 cells in row-major order, cell k at column k mod 64 and row
    k / 64, one fill of the 20x20 rectangle at (20 column, 20 row): white
    followed by a black outline when the cell is on, black when it is off;
    then it presents the frame. *)
Theorem update_screen_calls (c : chip8_t) :
  wf c ->
  update_screen default_config c
  = Ok (concat (imap cell_calls (display c)) ++ [SDL_RenderPresent]).
Proof.
  intros [_ Hd _ _]. unfold update_screen.
  change 0 with (Z.of_nat 0).
  rewrite update_screen_cells_default by (rewrite Hd; unfold DISPLAY_SIZE; lia).
  rewrite bind_Ok, drop_0, <- Hd, firstn_all. done.
Qed.

Lemma update_screen_calls_witness :
  exists calls,
    update_screen default_config collide_demo = Ok calls /\
    take 6 calls
    = [SDL_SetRenderDrawColor 255 255 255 255;
       SDL_RenderFillRect (SDL_Rect.mk 0 0 20 20);
       SDL_SetRenderDrawColor 0 0 0 255;
       SDL_RenderDrawRect (SDL_Rect.mk 0 0 20 20);
       SDL_SetRenderDrawColor 0 0 0 255;
       SDL_RenderFillRect (SDL_Rect.mk 20 0 20 20)].
Proof.
  eexists. split; [apply (update_screen_calls collide_demo); by_eval|].
  by_eval.
Defined.

(** ** The main loop *)

(** X23. While the machine is paused and no quit, Escape or Space event is
    pending, the main loop executes no cycle and renders nothing, however
    many times it iterates: it only empties the event queue. *)
Theorem main_loop_paused_spins (cfg : config_t) (c : chip8_t)
    (events : list SDL_Event) (fuel : nat) :
  state c = PAUSED ->
  Forall (fun e => decisive e = false) events ->
  main_loop (S fuel) cfg c events = Ok (c, [], [], []).
Proof.
  intros Hst Hev. revert events Hev.
  induction fuel as [|fuel IH]; intros events Hev.
  - cbn [main_loop]. rewrite Hst. unfold main_loop_body.
    rewrite handle_input_drains, Hst by done. reflexivity.
  - change (main_loop (S (S fuel)) cfg c events)
      with (match state c with
            | QUIT => Ok (c, events, [], [])
            | _ =>
                do r <- main_loop_body cfg c events;
                let '(chip8, events, out, calls) := r in
                do r' <- main_loop (S fuel) cfg chip8 events;
                let '(chip8, events, out', calls') := r' in
                Ok (chip8, events, out ++ out', calls ++ calls')
            end).
    rewrite Hst. unfold main_loop_body.
    rewrite handle_input_drains, Hst by done. rewrite bind_Ok.
    rewrite IH by constructor. reflexivity.
Qed.

Lemma main_loop_paused_spins_witness :
  main_loop 7 default_config (set_state (boot clip_rom) PAUSED)
    [SDL_KEYUP SDLK_SPACE; SDL_other 512]
  = Ok (set_state (boot clip_rom) PAUSED, [], [], []).
Proof.
  apply main_loop_paused_spins; [reflexivity|repeat constructor].
Defined.

Lemma main_loop_stops (cfg : config_t) (c : chip8_t) (events : list SDL_Event)
    (fuel : nat) :
  state c = QUIT -> main_loop fuel cfg c events = Ok (c, events, [], []).
Proof. intros Hst. destruct fuel; [done|]. cbn [main_loop]. by rewrite Hst. Qed.

(** X24. A quit event or Escape press does not stop the iteration that reads
    it: with the run state already [QUIT], the loop still executes one
    cycle and renders one frame, paused or not, and only then stops,
    leaving the events behind the quit unread. *)
Theorem main_loop_quit_runs_one_cycle (cfg : config_t) (c c1 : chip8_t)
    (e : SDL_Event) (before behind : list SDL_Event)
    (frame : list sdl_call) (fuel : nat) :
  state c <> QUIT ->
  Forall (fun e => decisive e = false) before ->
  e = SDL_QUIT \/ e = SDL_KEYDOWN SDLK_ESCAPE ->
  emulate_instruction (set_state c QUIT) cfg = Ok c1 ->
  update_screen cfg c1 = Ok frame ->
  main_loop (S fuel) cfg c (before ++ e :: behind)
  = Ok (c1, behind, [], SDL_Delay 16 :: frame) /\
  state c1 = QUIT.
Proof.
  intros Hst Hbefore He Hrun Hframe.
  assert (state c1 = QUIT) as Hq.
  { by apply emulate_frame in Hrun as (_ & -> & _). }
  split; [|done].
  assert (handle_input c (before ++ e :: behind) = (set_state c QUIT, behind, []))
    as Hin.
  { clear -Hbefore He. induction Hbefore as [|e0 before He0 _ IH].
    - by destruct He as [-> | ->].
    - cbn [app]. by rewrite handle_input_skip. }
  cbn [main_loop].
  assert (main_loop_body cfg c (before ++ e :: behind)
          = Ok (c1, behind, [], SDL_Delay 16 :: frame)) as ->.
  { unfold main_loop_body. rewrite Hin. cbn [state set_state].
    by rewrite Hrun, bind_Ok, Hframe. }
  rewrite bind_Ok, main_loop_stops by done. rewrite bind_Ok.
  rewrite !app_nil_r. by destruct (state c).
Qed.

Lemma main_loop_quit_runs_one_cycle_witness :
  state (set_state (boot clip_rom) PAUSED) = PAUSED /\
  reg (boot clip_rom) 0 = 0 /\
  exists c1 frame,
    main_loop 5 default_config (set_state (boot clip_rom) PAUSED)
      [SDL_KEYUP SDLK_SPACE; SDL_QUIT; SDL_KEYDOWN SDLK_SPACE]
    = Ok (c1, [SDL_KEYDOWN SDLK_SPACE], [], SDL_Delay 16 :: frame) /\
    state c1 = QUIT /\ reg c1 0 = 60.
Proof.
  split; [reflexivity|]. split; [by_eval|].
  exists (state_of (emulate_instruction
                      (set_state (set_state (boot clip_rom) PAUSED) QUIT)
                      default_config)).
  eexists.
  destruct (main_loop_quit_runs_one_cycle default_config
              (set_state (boot clip_rom) PAUSED)
              (state_of (emulate_instruction
                           (set_state (set_state (boot clip_rom) PAUSED) QUIT)
                           default_config))
              SDL_QUIT [SDL_KEYUP SDLK_SPACE] [SDL_KEYDOWN SDLK_SPACE]
              (state_of_frame
                 (update_screen default_config
                    (state_of (emulate_instruction
                                 (set_state (set_state (boot clip_rom) PAUSED) QUIT)
                                 default_config))))
              4)
    as [Hloop Hq];
    [discriminate|repeat constructor|by left|by_eval|by_eval|].
  split; [exact Hloop|]. split; [exact Hq|by_eval].
Defined.

(** ** Which opcode writes what *)

Lemma execute_footprint (c c' : chip8_t) (cfg : config_t) :
  execute c cfg = Ok c' ->
  let t := top_nibble (opcode (inst c)) in
  let low := NN (inst c) in
  (t <> 10 -> I c' = I c) /\
  (t <> 6 -> t <> 7 -> t <> 13 -> V c' = V c) /\
  (t <> 13 -> ~ (t = 0 /\ low = 0xE0) -> display c' = display c) /\
  (t <> 2 -> ~ (t = 0 /\ low = 0xEE) ->
   stack c' = stack c /\ stack_ptr c' = stack_ptr c) /\
  (t <> 1 -> t <> 2 -> ~ (t = 0 /\ low = 0xEE) -> PC c' = PC c).
Proof.
  intros Hrun t low.
  destruct (top_nibble_cases (opcode (inst c)))
    as [H|[H|[H|[H|[H|[H|[H|(H0 & H1 & H2 & H6 & H7 & HA & HD)]]]]]]];
    fold t in H || fold t in H0, H1, H2, H6, H7, HA, HD.
  - rewrite execute_0 in Hrun by done. fold low in Hrun.
    destruct (Z.eqb_spec low 224) as [E0|NE0].
    { injection Hrun as <-. repeat split; try done; try lia. }
    destruct (Z.eqb_spec low 238) as [EE|NEE].
    { destruct (stack_ptr c) as [sp|]; [|done].
      apply bind_inv in Hrun as (ret & _ & [= <-]).
      repeat split; try done; try lia; intros; exfalso; tauto. }
    injection Hrun as <-. by repeat split.
  - rewrite execute_1 in Hrun by done. injection Hrun as <-.
    repeat split; try done; lia.
  - rewrite execute_2 in Hrun by done.
    destruct (stack_ptr c) as [sp|]; [|done].
    apply bind_inv in Hrun as (stk & _ & [= <-]).
    repeat split; try done; lia.
  - rewrite execute_6 in Hrun by done.
    apply bind_inv in Hrun as (v & _ & [= <-]).
    repeat split; try done; lia.
  - rewrite execute_7 in Hrun by done.
    apply bind_inv in Hrun as (vx & _ & Hrun).
    apply bind_inv in Hrun as (v & _ & [= <-]).
    repeat split; try done; lia.
  - rewrite execute_A in Hrun by done. injection Hrun as <-.
    repeat split; try done; lia.
  - rewrite execute_D in Hrun by done.
    apply bind_inv in Hrun as (vx & _ & Hrun).
    apply bind_inv in Hrun as (xm & _ & Hrun).
    apply bind_inv in Hrun as (vy & _ & Hrun).
    apply bind_inv in Hrun as (ym & _ & Hrun).
    apply bind_inv in Hrun as (v0 & _ & Hrun).
    apply draw_sprite_frame in Hrun as (d & v & -> & _).
    repeat split; try done; lia.
  - rewrite execute_other in Hrun by done. injection Hrun as <-.
    by repeat split.
Qed.

(** X25. Each part of the machine is written by its own opcodes only: in a
    cycle that completes, the index register changes only on ANNN, the
    registers only on 6XNN, 7XNN and DXYN, the display only on 0_E0 and
    DXYN, the call stack and its pointer only on 2NNN and 0_EE, and the
    program counter ends at the old one plus 2 unless the opcode is 1NNN,
    2NNN or 0_EE. *)
Theorem opcode_write_footprint (c c' : chip8_t) (cfg : config_t) :
  wf c ->
  emulate_instruction c cfg = Ok c' ->
  let t := top_nibble (opcode_at c) in
  let low := Z.land (opcode_at c) 0xFF in
  (t <> 10 -> I c' = I c) /\
  (t <> 6 -> t <> 7 -> t <> 13 -> V c' = V c) /\
  (t <> 13 -> ~ (t = 0 /\ low = 0xE0) -> display c' = display c) /\
  (t <> 2 -> ~ (t = 0 /\ low = 0xEE) ->
   stack c' = stack c /\ stack_ptr c' = stack_ptr c) /\
  (t <> 1 -> t <> 2 -> ~ (t = 0 /\ low = 0xEE) -> PC c' = PC c + 2).
Proof.
  intros [Hram _ _ _] Hrun t low.
  pose proof (emulate_fetch_inv c c' cfg Hram Hrun) as Hpc.
  rewrite emulate_fetch in Hrun by done.
  apply execute_footprint in Hrun.
  cbn [inst set_inst I V display stack stack_ptr PC set_PC] in Hrun.
  rewrite decode_fields in Hrun. cbn [opcode NN] in Hrun.
  exact Hrun.
Qed.

Lemma opcode_write_footprint_witness :
  I collide_demo = I blank_demo /\ stack collide_demo = stack blank_demo /\
  PC collide_demo = PC blank_demo + 2.
Proof.
  assert (Hrun : emulate_instruction blank_demo default_config = Ok collide_demo)
    by by_eval.
  destruct (opcode_write_footprint blank_demo collide_demo default_config
              ltac:(by_eval) Hrun)
    as (HI & _ & _ & Hstk & Hpc).
  split; [apply HI; vm_compute; discriminate|].
  split.
  - apply Hstk; [vm_compute; discriminate|].
    intros [Ht _]. vm_compute in Ht. discriminate Ht.
  - apply Hpc; [vm_compute; discriminate..|].
    intros [Ht _]. vm_compute in Ht. discriminate Ht.
Defined.

(** X26. On a display with every cell off, a draw cycle never reports a
    collision and leaves on exactly the set bits of the sprite that fall on
    the screen: register 15 is 0 and cell (x, y) is on iff it lies in the
    8-column, N-row rectangle from (X0, Y0) and its sprite bit is set. *)
Theorem draw_on_blank_display (c : chip8_t) :
  wf c -> 0 <= PC c <= 4094 ->
  top_nibble (opcode_at c) = 13 ->
  (forall x y, 0 <= x < 64 -> 0 <= y < 32 -> pixel_at (display c) x y = false) ->
  let i := decode (opcode_at c) in
  let X0 := reg c (X i) mod 64 in
  let Y0 := reg c (Y i) mod 32 in
  0 <= I c -> I c + Z.min (N i) (32 - Y0) <= 4096 ->
  exists c',
    emulate_instruction c default_config = Ok c' /\
    reg c' 15 = 0 /\
    (forall x y, 0 <= x < 64 -> 0 <= y < 32 ->
       pixel_at (display c') x y =
       bool_decide (X0 <= x < X0 + 8 /\ Y0 <= y < Y0 + N i) &&
       Z.testbit (ram c !!! Z.to_nat (I c + (y - Y0))) (7 - (x - X0))).
Proof.
  intros Hwf Hpc Htop Hblank i X0 Y0 HI Hread.
  destruct (draw_cycle_spec c Hwf Hpc Htop HI Hread)
    as (d & v & Hrun & _ & Hpx & Hflag).
  fold i X0 Y0 in Hpx, Hflag.
  destruct Hwf as [_ _ _ Hv].
  exists (with_dv (fetched c) d v). split; [done|].
  unfold reg. cbn [V display with_dv set_V set_display].
  change (Z.to_nat 15) with 15%nat. split.
  - destruct Hflag as [[(x & y & Hx & Hy & _ & Hon) _]|[_ ->]].
    + rewrite Hblank in Hon by done. done.
    + apply list_lookup_total_insert_eq. lia.
  - intros x y Hx Hy.
    by rewrite Hpx, Hblank, sprite_mask_unfold, xorb_false_l by done.
Qed.

Lemma draw_on_blank_display_witness :
  exists c',
    emulate_instruction clip_demo default_config = Ok c' /\
    reg c' 15 = 0 /\
    pixel_at (display c') 63 0 = true /\ pixel_at (display c') 0 0 = false.
Proof.
  destruct (draw_on_blank_display clip_demo) as (c' & Hrun & Hf & Hpx);
    [by_eval|by_eval|by_eval| |by_eval|by_eval|].
  { intros x y Hx Hy. unfold pixel_at.
    change (display clip_demo) with (display zero_chip8).
    apply list_lookup_total_correct, lookup_replicate_2.
    unfold DISPLAY_SIZE. lia. }
  exists c'. split; [exact Hrun|]. split; [exact Hf|].
  split; rewrite Hpx by lia; by_eval.
Defined.

(** ** The fetch and decode stage of a cycle *)

Lemma execute_unimplemented (c : chip8_t) (cfg : config_t) :
  implemented (opcode (inst c)) = false ->
  NN (inst c) = Z.land (opcode (inst c)) 0xFF ->
  execute c cfg = Ok c.
Proof.
  intros Himp Hnn. apply implemented_false_iff in Himp
    as (H1 & H2 & H6 & H7 & HA & HD & H0).
  destruct (decide (top_nibble (opcode (inst c)) = 0)) as [E0|N0].
  - rewrite execute_0 by done. rewrite Hnn.
    destruct (H0 E0) as [HE0 HEE].
    destruct (Z.eqb_spec (Z.land (opcode (inst c)) 255) 224); [done|].
    destruct (Z.eqb_spec (Z.land (opcode (inst c)) 255) 238); [done|].
    reflexivity.
  - by apply execute_other.
Qed.

(** C4. A cycle forms its opcode from the byte [hi] at PC and the byte [lo]
    at PC+1 as the big-endian word [hi<<8 | lo], a 16-bit value, and runs
    the opcode switch on the machine whose instruction holds exactly
    NNN = opcode & 0x0FFF, NN = opcode & 0x00FF, N = opcode & 0x000F,
    X = (opcode>>8) & 0xF and Y = (opcode>>4) & 0xF (the narrowing stores
    of the fields lose nothing); every cycle that completes leaves this
    instruction in the machine.  Decoding has no failure of its own: on an
    opcode that no case of the switch matches the cycle still completes,
    with that instruction decoded. *)
Theorem decode_opcode_fields (c : chip8_t) (cfg : config_t) :
  wf c -> 0 <= PC c <= 4094 ->
  let hi := ram c !!! Z.to_nat (PC c) in
  let lo := ram c !!! Z.to_nat (PC c + 1) in
  0 <= hi < 256 -> 0 <= lo < 256 ->
  let op := Z.lor (Z.shiftl hi 8) lo in
  let i := {| opcode := op;
              NNN := Z.land op 0x0FFF;
              NN := Z.land op 0x00FF;
              N := Z.land op 0x000F;
              X := Z.land (Z.shiftr op 8) 0xF;
              Y := Z.land (Z.shiftr op 4) 0xF |} in
  0 <= op < 65536 /\
  emulate_instruction c cfg = execute (set_inst (set_PC c (PC c + 2)) i) cfg /\
  (forall c', emulate_instruction c cfg = Ok c' -> inst c' = i) /\
  (implemented op = false ->
   emulate_instruction c cfg = Ok (set_inst (set_PC c (PC c + 2)) i)).
Proof.
  intros [Hram _ _ _] Hpc hi lo Hhi Hlo op i.
  destruct (decode_bytes_fields hi lo Hhi Hlo) as (Hop & Hrange & Hdec).
  fold op in Hop, Hrange, Hdec. fold i in Hdec.
  assert (decode (opcode_at c) = i) as Hi by exact Hdec.
  assert (emulate_instruction c cfg
          = execute (set_inst (set_PC c (PC c + 2)) i) cfg) as Hcycle.
  { rewrite emulate_fetch by done. by rewrite Hi. }
  split; [done|]. split; [done|]. split.
  - intros c' Hrun. rewrite Hcycle in Hrun.
    by apply execute_frame in Hrun as (_ & _ & _ & _ & _ & _ & ->).
  - intros Himp. rewrite Hcycle. by apply execute_unimplemented.
Qed.

Lemma decode_opcode_fields_witness :
  exists c',
    emulate_instruction decode_demo default_config = Ok c' /\
    inst c' =
    {| opcode := 0xD125; NNN := 0x125; NN := 0x25; N := 5; X := 1; Y := 2 |}.
Proof.
  destruct (decode_opcode_fields decode_demo default_config)
    as (_ & _ & Hinst & _); [by_eval..|].
  exists (state_of (run 1 decode_demo)).
  assert (emulate_instruction decode_demo default_config
          = Ok (state_of (run 1 decode_demo))) as Hrun by by_eval.
  split; [exact Hrun|]. rewrite (Hinst _ Hrun). by_eval.
Defined.
